(** * build/build-bundle.js: the bundling pipeline of Lighthouse

    A shallow embedding of [build/build-bundle.js].  The script drives three
    libraries (browserify, exorcist, terser) and Node's [fs], [path] and
    stream modules.  What the script itself decides is modelled as it is
    written: which calls are made on the browserify instance and in which
    order, which listeners are attached to which stream, the order of the
    file reads, the minifier call and the file writes, and how a thrown
    error or a rejected promise travels.  The libraries appear as fields of
    an environment record. *)

From Stdlib Require Import Ascii.
From stdpp Require Import gmap strings list fin_maps.


(** ** JavaScript string built-ins used by the script *)

Module Js.

(** [s.startsWith(pat)] *)
Fixpoint startsWith (pat s : string) : bool :=
  match pat, s with
  | EmptyString, _ => true
  | String _ _, EmptyString => false
  | String a p, String b t => if Ascii.eqb a b then startsWith p t else false
  end.

(** [s.slice(n)] *)
Fixpoint slice_from (n : nat) (s : string) : string :=
  match n, s with
  | O, _ => s
  | S _, EmptyString => EmptyString
  | S m, String _ t => slice_from m t
  end.

(** [s.slice(0, n)] *)
Fixpoint slice_to (n : nat) (s : string) : string :=
  match n, s with
  | O, _ => EmptyString
  | S _, EmptyString => EmptyString
  | S m, String c t => String c (slice_to m t)
  end.

(** [s.replace(pat, rep)] with a string pattern: only the first occurrence
    of [pat] is replaced.  The replacement strings of the script contain
    no dollar sign, so the replacement patterns of JavaScript play no
    role. *)
Fixpoint replace (pat rep s : string) : string :=
  if startsWith pat s then rep +:+ slice_from (String.length pat) s
  else match s with
       | EmptyString => EmptyString
       | String c t => String c (replace pat rep t)
       end.

(** [s.includes(sub)] *)
Fixpoint includes (s sub : string) : bool :=
  startsWith sub s ||
  match s with
  | EmptyString => false
  | String _ t => includes t sub
  end.

(** [s.endsWith(suf)] *)
Definition endsWith (suf s : string) : bool :=
  startsWith (String.rev suf) (String.rev s).

(** [f.replace(/\.js$/, '')]: the pattern is anchored at the end of the
    string, so a trailing ".js" is removed and nothing else changes. *)
Definition strip_js (f : string) : string :=
  if endsWith ".js" f then slice_to (String.length f - 3) f else f.

End Js.

(** ** Node's [path] module (POSIX flavour) *)

Module Path.

Definition is_sep (c : ascii) : bool := Ascii.eqb c "/"%char.

Fixpoint drop_seps (s : string) : string :=
  match s with
  | String c t => if is_sep c then drop_seps t else s
  | EmptyString => EmptyString
  end.

Fixpoint take_segment (s : string) : string :=
  match s with
  | String c t => if is_sep c then EmptyString else String c (take_segment t)
  | EmptyString => EmptyString
  end.

Fixpoint drop_segment (s : string) : string :=
  match s with
  | String c t => if is_sep c then s else drop_segment t
  | EmptyString => EmptyString
  end.

(** [path.basename(p)]: trailing separators are skipped, the result is the
    last segment. *)
Definition basename (p : string) : string :=
  String.rev (take_segment (drop_seps (String.rev p))).

(** [path.dirname(p)] *)
Definition dirname (p : string) : string :=
  match p with
  | EmptyString => "."
  | String c0 rest =>
      match drop_segment (drop_seps (String.rev rest)) with
      | EmptyString => if is_sep c0 then "/" else "."
      | String _ before =>
          match before with
          | EmptyString => if is_sep c0 then "//" else String c0 EmptyString
          | _ => String c0 (String.rev before)
          end
      end
  end.

Fixpoint split_go (cur : string) (s : string) : list string :=
  match s with
  | EmptyString => [String.rev cur]
  | String c t =>
      if is_sep c then String.rev cur :: split_go EmptyString t
      else split_go (String c cur) t
  end.

Definition split (s : string) : list string := split_go EmptyString s.

(** Segment normalisation of an absolute path: empty segments and "." are
    dropped, ".." removes the segment before it and is dropped at the
    root. *)
Fixpoint normalize_go (stack : list string) (segs : list string) : list string :=
  match segs with
  | [] => rev stack
  | s :: rest =>
      if decide (s = "" ∨ s = ".") then normalize_go stack rest
      else if decide (s = "..") then normalize_go (tail stack) rest
      else normalize_go (s :: stack) rest
  end.

Fixpoint join (segs : list string) : string :=
  match segs with
  | [] => ""
  | [s] => s
  | s :: rest => s +:+ "/" +:+ join rest
  end.

(** [path.resolve(cwd, p)] where [cwd] is [process.cwd()], which is always
    absolute: an absolute [p] wins, a relative [p] is taken below [cwd];
    the result is normalised and starts with the root. *)
Definition resolve (cwd p : string) : string :=
  let full := if Js.startsWith "/" p then p else cwd +:+ "/" +:+ p in
  "/" +:+ join (normalize_go [] (split full)).

Definition isAbsolute (p : string) : bool := Js.startsWith "/" p.

End Path.

(** ** Errors, completions and the world the script acts on *)

(** Values that the script or its libraries throw. *)
Inductive Error : Type :=
  | ModuleNotFound (request : string)   (* require of a missing file *)
  | TypeError (what : string)           (* a path function applied to undefined *)
  | ENOENT (path : string)              (* fs.readFileSync on a missing file *)
  | MkdirError (dir : string)
  | JsonSyntaxError (text : string)     (* JSON.parse *)
  | MinifyError (message : string)      (* the error field of terser's result *)
  | StreamError (message : string)      (* payload of a stream 'error' event *)
  | Undefined.                          (* reject called without an argument *)

Global Instance Error_eq_dec : EqDecision Error.
Proof. solve_decision. Defined.

(** The options object handed to [terser.minify]. *)
Record MinifyOptions : Type := {
  output_comments : string;
  output_max_line_len : nat;
  keep_classnames : bool;
  keep_fnames : bool;
  mangle_reserved : list string;
  sourceMap_content : string;
  sourceMap_url : string;
}.

(** The object returned by [terser.minify]. *)
Record MinifyResult : Type := {
  error : option Error;
  code : string;
  map : string;
}.

(** A call made on the browserify instance, with its arguments. *)
Inductive Call : Type :=
  | Plugin (name : string) (pkg : gmap string string) (file : string)
  | Transform (name : string) (opts : list (string * string))
  | Ignore (file : string)
  | IgnoreAll (files : list string)
  | Require (file : string) (expose : option string).

(** The browserify instance: every method of it used by the script returns
    the instance itself, having recorded the call. *)
Record Bundler : Type := {
  entry : string;
  debug : bool;
  calls : list Call;
}.

(** Side effects in the order in which the script performs them. *)
Inductive Effect : Type :=
  | EBundle (b : Bundler)
  | EMkdir (dir : string)
  | ECreateWriteStream (path : string)
  | EExorcist (mapPath : string)
  | EReadFile (path : string)
  | EMinify (input : string) (opts : MinifyOptions)
  | EWriteFile (path : string) (data : string).

(** The three streams of the pipeline. *)
Inductive Stream : Type := BundleStream | ExorcistStream | WriteStream.

Inductive EventName : Type := finish | error_event.

Inductive StreamEvent : Type := Finish | Failed (e : Error).

Record Emitted : Type := Emit { source : Stream; event : StreamEvent }.

Global Instance Stream_eq_dec : EqDecision Stream.
Proof. solve_decision. Defined.
Global Instance EventName_eq_dec : EqDecision EventName.
Proof. solve_decision. Defined.

(** What the script cannot decide: the libraries and the machine. *)
Record Env : Type := {
  COMMIT_HASH : string;
  (** [LighthouseRunner.getAuditList()] and [getGathererList()] *)
  getAuditList : list string;
  getGathererList : list string;
  (** [fs.readdirSync] of the locales directory *)
  readdir_locales : list string;
  (** the [path] of every audit of lighthouse-plugin-publisher-ads *)
  plugin_audit_paths : list string;
  (** [require.resolve] on files of the checkout *)
  require_resolve : string → string;
  (** [require('../package.json')]; [None] when the file cannot be read *)
  package_json : option (gmap string string);
  (** [fs.promises.mkdir(dir, {recursive: true})]; [Some e] when it rejects *)
  mkdir : string → option Error;
  (** what the write stream and exorcist leave on disk for a destination *)
  stream_disk : Bundler → string → gmap string string → gmap string string;
  (** the events the three streams emit, in order *)
  stream_events : Bundler → list Emitted;
  terser_minify : string → MinifyOptions → MinifyResult;
  (** [JSON.parse]; [None] when it throws *)
  JSON_parse : string → option string;
  (** [process.cwd()] *)
  cwd : string;
}.

Record World : Type := {
  files : gmap string string;
  trace : list Effect;
  (** 'error' events emitted on a stream that nobody listens to *)
  uncaught : list Error;
  (** rejected promises that nobody awaits or catches *)
  unhandled : list Error;
}.

Definition log (e : Effect) (w : World) : World :=
  {| files := files w; trace := trace w ++ [e];
     uncaught := uncaught w; unhandled := unhandled w |}.

Definition set_files (f : gmap string string) (w : World) : World :=
  {| files := f; trace := trace w;
     uncaught := uncaught w; unhandled := unhandled w |}.

Definition add_uncaught (es : list Error) (w : World) : World :=
  {| files := files w; trace := trace w;
     uncaught := uncaught w ++ es; unhandled := unhandled w |}.

Definition add_unhandled (e : Error) (w : World) : World :=
  {| files := files w; trace := trace w;
     uncaught := uncaught w; unhandled := unhandled w ++ [e] |}.

(** How a piece of code ends.  For an async function, [Returned] is a
    fulfilled promise, [Thrown] a rejected one and [Suspended] a promise
    that stays pending: code that awaits it never continues. *)
Inductive Completion (A : Type) : Type :=
  | Returned (a : A)
  | Thrown (e : Error)
  | Suspended.
Global Arguments Returned {A} a.
Global Arguments Thrown {A} e.
Global Arguments Suspended {A}.

(** Code that may fail but has no effect on the world. *)
Global Instance Completion_ret : MRet Completion := @Returned.
Global Instance Completion_bind : MBind Completion := λ A B k c,
  match c with
  | Returned a => k a
  | Thrown e => Thrown e
  | Suspended => Suspended
  end.

(** Effectful code: effects performed before a throw stay performed. *)
Definition M (A : Type) : Type := World → Completion A * World.

Global Instance M_ret : MRet M := λ A a w, (Returned a, w).
Global Instance M_bind : MBind M := λ A B k m w,
  match m w with
  | (Returned a, w') => k a w'
  | (Thrown e, w') => (Thrown e, w')
  | (Suspended, w') => (Suspended, w')
  end.

Definition throw {A} (e : Error) : M A := λ w, (Thrown e, w).
Definition lift {A} (c : Completion A) : M A := λ w, (c, w).
Definition perform (e : Effect) : M unit := λ w, (Returned tt, log e w).

(** ** The promise built around the write stream (lines 120-129) *)

Inductive Settle : Type := resolve | reject.

Inductive PromiseState : Type :=
  | Pending
  | Fulfilled
  | Rejected (reason : Error).

(** The [on] calls of the promise executor: both are on the write stream.
    The two [pipe] calls attach no listener of the script's own; Node's
    [pipe] does not forward 'error' events from a source to its
    destination. *)
Definition listeners : list (Stream * EventName * Settle) :=
  [ (WriteStream, finish, resolve);
    (WriteStream, error_event, reject) ].

Definition pipes : list (Stream * Stream) :=
  [ (BundleStream, ExorcistStream); (ExorcistStream, WriteStream) ].

Definition name_of (ev : StreamEvent) : EventName :=
  match ev with
  | Finish => finish
  | Failed _ => error_event
  end.

Definition listening (s : Stream) (n : EventName) : list Settle :=
  omap (λ l, match l with
             | (s', n', cb) =>
                 if decide (s' = s ∧ n' = n) then Some cb else None
             end) listeners.

(** [resolve] and [reject] only act on a pending promise. *)
Definition settle (ev : StreamEvent) (p : PromiseState) (cb : Settle) : PromiseState :=
  match p with
  | Pending =>
      match cb with
      | resolve => Fulfilled
      | reject => Rejected (match ev with Failed e => e | Finish => Undefined end)
      end
  | _ => p
  end.

(** An event is delivered to the listeners of its stream; an 'error' event
    on a stream without an 'error' listener is an uncaught exception. *)
Definition emit (st : PromiseState * list Error) (em : Emitted)
  : PromiseState * list Error :=
  match listening (source em) (name_of (event em)), event em with
  | [], Failed e => (st.1, st.2 ++ [e])
  | cbs, ev => (foldl (settle ev) st.1 cbs, st.2)
  end.

Definition run_streams (evs : list Emitted) : PromiseState * list Error :=
  foldl emit (Pending, []) evs.

(** ** The script *)

Section Script.
Context (env : Env).

(** Module-level constants (lines 26-38). *)
Definition audits : list string :=
  (λ f, "./lighthouse-core/audits/" +:+ Js.strip_js f) <$> getAuditList env.

Definition gatherers : list string :=
  (λ f, "./lighthouse-core/gather/gatherers/" +:+ Js.strip_js f)
    <$> getGathererList env.

Definition locales : list string :=
  (λ f, require_resolve env ("../lighthouse-core/lib/i18n/locales/" +:+ f))
    <$> readdir_locales env.

Definition pubAdsAudits : list string := plugin_audit_paths env.

Definition isDevtools (file : string) : bool :=
  Js.includes (Path.basename file) "devtools".

Definition isLightrider (file : string) : bool :=
  Js.includes (Path.basename file) "lightrider".

(** [browserify(entryPath, {debug})] and a method call on the instance. *)
Definition browserify (entryPath : string) (dbg : bool) : Bundler :=
  {| entry := entryPath; debug := dbg; calls := [] |}.

Definition call (c : Call) (b : Bundler) : Bundler :=
  {| entry := entry b; debug := debug b; calls := calls b ++ [c] |}.

Definition require_package_json : Completion (gmap string string) :=
  match package_json env with
  | Some pkg => Returned pkg
  | None => Thrown (ModuleNotFound "../package.json")
  end.

(** Lines 54-114 of [browserifyFile]: everything up to [bundle.bundle()]. *)
Definition configure (entryPath : string) : Completion Bundler :=
  let bundle := browserify entryPath true in
  pkg ← require_package_json;
  let bundle :=
    call (Plugin "browserify-banner"
            (pkg ∪ {[ "COMMIT_HASH" := COMMIT_HASH env ]})
            (require_resolve env "./banner.txt")) bundle in
  let bundle :=
    call (Transform "@wardpeet/brfs"
            [("global", "true"); ("parserOpts.ecmaVersion", "10")]) bundle in
  let bundle := call (Transform "package-json-versionify" []) bundle in
  let bundle := call (Ignore "source-map") bundle in
  let bundle := call (Ignore "debug/node") bundle in
  let bundle := call (Ignore "intl") bundle in
  let bundle := call (Ignore "intl-pluralrules") bundle in
  let bundle := call (Ignore "raven") bundle in
  let bundle := call (Ignore "rimraf") bundle in
  let bundle := call (Ignore "pako/lib/zlib/inflate.js") bundle in
  let bundle :=
    call (Ignore (require_resolve env
                    "../lighthouse-core/gather/connections/cri.js")) bundle in
  let bundle :=
    if isDevtools entryPath || isLightrider entryPath
    then call (Ignore (require_resolve env
                 "../lighthouse-core/report/html/html-report-assets.js")) bundle
    else bundle in
  let bundle :=
    if isDevtools entryPath then call (IgnoreAll locales) bundle else bundle in
  let corePath := "./lighthouse-core/" in
  let driverPath := corePath +:+ "gather/" in
  let bundle :=
    foldl (λ b audit,
             call (Require audit (Some (Js.replace corePath "../" audit))) b)
          bundle audits in
  let bundle :=
    foldl (λ b gatherer,
             call (Require gatherer
                     (Some (Js.replace driverPath "../gather/" gatherer))) b)
          bundle gatherers in
  let bundle :=
    if isDevtools entryPath
    then foldl (λ b pubAdAudit, call (Require pubAdAudit None) b)
               (call (Require "lighthouse-plugin-publisher-ads" None) bundle)
               pubAdsAudits
    else bundle in
  let pathToURLShim := require_resolve env "../lighthouse-core/lib/url-shim.js" in
  let bundle := call (Require pathToURLShim (Some "url")) bundle in
  mret bundle.

(** [await mkdir(dir, {recursive: true})] *)
Definition await_mkdir (dir : string) : M unit := λ w,
  match mkdir env dir with
  | None => (Returned tt, log (EMkdir dir) w)
  | Some e => (Thrown e, log (EMkdir dir) w)
  end.

(** The promise executor (lines 120-129) and the life of the promise. *)
Definition pipe_to_disk (bundle : Bundler) (distPath : string) : M unit := λ w,
  let w := log (ECreateWriteStream distPath) w in
  let w := log (EExorcist (distPath +:+ ".map")) w in
  let w := set_files (stream_disk env bundle distPath (files w)) w in
  let st := run_streams (stream_events env bundle) in
  (match st.1 with
   | Fulfilled => Returned tt
   | Rejected e => Thrown e
   | Pending => Suspended
   end, add_uncaught st.2 w).

Definition browserifyFile (entryPath distPath : string) : M unit :=
  bundle ← lift (configure entryPath);
  perform (EBundle bundle);;
  await_mkdir (Path.dirname distPath);;
  pipe_to_disk bundle distPath.

(** [fs.readFileSync(p, 'utf-8')] *)
Definition readFileSync (p : string) : M string := λ w,
  match files w !! p with
  | Some data => (Returned data, log (EReadFile p) w)
  | None => (Thrown (ENOENT p), log (EReadFile p) w)
  end.

(** [fs.writeFileSync(p, data)]: creates or overwrites the file.  A write
    that the operating system refuses (permissions, full disk) is outside
    the model. *)
Definition writeFileSync (p data : string) : M unit := λ w,
  (Returned tt, log (EWriteFile p data) (set_files (<[p := data]> (files w)) w)).

Definition parse_json (text : string) : M string :=
  match JSON_parse env text with
  | Some v => mret v
  | None => throw (JsonSyntaxError text)
  end.

Definition minify (input : string) (opts : MinifyOptions) : M MinifyResult := λ w,
  (Returned (terser_minify env input opts), log (EMinify input opts) w).

(** The options literal of lines 138-155. *)
Definition minify_options (filePath content : string) : MinifyOptions :=
  {| output_comments := "^!";
     output_max_line_len := 1000;
     keep_classnames := true;
     keep_fnames := true;
     mangle_reserved := ["ChromeProtocol"; "mkdirp"; "rimraf"; "fs"];
     sourceMap_content := content;
     sourceMap_url := Path.basename (filePath +:+ ".map") |}.

Definition minifyScript (filePath : string) : M unit :=
  input ← readFileSync filePath;
  mapText ← readFileSync (filePath +:+ ".map");
  content ← parse_json mapText;
  result ← minify input (minify_options filePath content);
  match error result with
  | Some e => throw e
  | None =>
      writeFileSync filePath (code result);;
      writeFileSync (filePath +:+ ".map") (map result)
  end.

Definition build (entryPath distPath : string) : M unit :=
  browserifyFile entryPath distPath;;
  minifyScript distPath.

(** [build] as [cli] calls it: destructuring a short array leaves
    [undefined] in [entryPath] or [distPath], and [path.basename] (line 80)
    or [path.dirname] (line 119) throws on it. *)
Definition build_dyn (entryPath distPath : option string) : M unit :=
  match entryPath, distPath with
  | Some e, Some d => build e d
  | Some e, None =>
      bundle ← lift (configure e);
      perform (EBundle bundle);;
      throw (TypeError "path.dirname")
  | None, _ =>
      _ ← lift require_package_json;
      throw (TypeError "path.basename")
  end.

(** [cli(argv)]: the promise of [build] is dropped, so a rejection of it
    is an unhandled rejection; [cli] itself completes normally. *)
Definition cli (argv : list string) : M unit := λ w,
  let paths := Path.resolve (cwd env) <$> drop 2 argv in
  let entryPath := paths !! 0 in
  let distPath := paths !! 1 in
  match build_dyn entryPath distPath w with
  | (Thrown e, w') => (Returned tt, add_unhandled e w')
  | (_, w') => (Returned tt, w')
  end.

End Script.

(** ** Reading a recorded session *)

Definition is_ignore (c : Call) : bool :=
  match c with
  | Ignore _ | IgnoreAll _ => true
  | _ => false
  end.


(** The exclusion list of the session: [ignore] of an array ignores each of
    its elements. *)
Definition excluded (cs : list Call) : list string :=
  cs ≫= λ c, match c with
             | Ignore f => [f]
             | IgnoreAll fs => fs
             | _ => []
             end.

(** The modules registered by [require], with the name they are exposed
    under. *)
Definition registered (cs : list Call) : list (string * option string) :=
  omap (λ c, match c with
             | Require f e => Some (f, e)
             | _ => None
             end) cs.

(** The effects performed by one run of [m] from the world [w]. *)
Definition effects_of {A} (m : M A) (w : World) : list Effect :=
  drop (length (trace w)) (trace (m w).2).

Section Phases.
Context (env : Env).

Definition setup_calls (pkg : gmap string string) : list Call :=
  [ Plugin "browserify-banner"
      (pkg ∪ {[ "COMMIT_HASH" := COMMIT_HASH env ]})
      (require_resolve env "./banner.txt");
    Transform "@wardpeet/brfs"
      [("global", "true"); ("parserOpts.ecmaVersion", "10")];
    Transform "package-json-versionify" [] ].

(** The modules ignored for every entry point (lines 67-76). *)
Definition always_excluded : list string :=
  [ "source-map"; "debug/node"; "intl"; "intl-pluralrules"; "raven"; "rimraf";
    "pako/lib/zlib/inflate.js";
    require_resolve env "../lighthouse-core/gather/connections/cri.js" ].

Definition report_assets : string :=
  require_resolve env "../lighthouse-core/report/html/html-report-assets.js".

Definition target_ignores (entryPath : string) : list Call :=
  (if isDevtools entryPath || isLightrider entryPath
   then [Ignore report_assets] else []) ++
  (if isDevtools entryPath then [IgnoreAll (locales env)] else []).

(** On-disk path and logical load path of an audit and of a gatherer file:
    the prefix in front of the rest of the path is exchanged. *)
Definition audit_row (f : string) : string * option string :=
  let rest := "audits/" +:+ Js.strip_js f in
  ("./lighthouse-core/" +:+ rest, Some ("../" +:+ rest)).

Definition gatherer_row (f : string) : string * option string :=
  let rest := "gatherers/" +:+ Js.strip_js f in
  ("./lighthouse-core/gather/" +:+ rest, Some ("../gather/" +:+ rest)).

Definition row_call (r : string * option string) : Call := Require r.1 r.2.

Definition plugin_rows (entryPath : string) : list (string * option string) :=
  if isDevtools entryPath
  then ("lighthouse-plugin-publisher-ads", None)
         :: ((λ a, (a, None)) <$> pubAdsAudits env)
  else [].

Definition shim_row : string * option string :=
  (require_resolve env "../lighthouse-core/lib/url-shim.js", Some "url").

Definition all_rows (entryPath : string) : list (string * option string) :=
  (audit_row <$> getAuditList env) ++ (gatherer_row <$> getGathererList env)
  ++ plugin_rows entryPath ++ [shim_row].

End Phases.

(** ** A small checkout to run the script on *)

Definition checkout (pkg : option (gmap string string)) (events : list Emitted)
    (minifier : string → MinifyOptions → MinifyResult) : Env :=
  {| COMMIT_HASH := "0123abc";
     getAuditList := ["sized-images.js"; "metrics/interactive.js"];
     getGathererList := ["image-elements.js"];
     readdir_locales := ["en-US.json"; "de.json"];
     plugin_audit_paths :=
       ["lighthouse-plugin-publisher-ads/audits/ad-blocking-tasks"];
     require_resolve := Path.resolve "/lh/build";
     package_json := pkg;
     mkdir := λ _, None;
     stream_disk := λ _ dist disk,
       <[dist +:+ ".map" := "{}"]> (<[dist := "bundle"]> disk);
     stream_events := λ _, events;
     terser_minify := minifier;
     JSON_parse := λ text, Some text;
     cwd := "/lh" |}.

Definition minifier_ok (input : string) (opts : MinifyOptions) : MinifyResult :=
  {| error := None; code := "min:" +:+ input; map := "{min}" |}.

Definition minifier_failing (input : string) (opts : MinifyOptions) : MinifyResult :=
  {| error := Some (MinifyError "Unexpected token"); code := ""; map := "" |}.

Definition demo_pkg : gmap string string := {[ "version" := "6.0.0" ]}.

Definition demo_env : Env :=
  checkout (Some demo_pkg) [Emit WriteStream Finish] minifier_ok.

Definition world_of (disk : gmap string string) : World :=
  {| files := disk; trace := []; uncaught := []; unhandled := [] |}.

(** The small checkout with another [mkdir] or another [JSON.parse]. *)
Definition with_mkdir (f : string → option Error) (env : Env) : Env :=
  {| COMMIT_HASH := COMMIT_HASH env;
     getAuditList := getAuditList env;
     getGathererList := getGathererList env;
     readdir_locales := readdir_locales env;
     plugin_audit_paths := plugin_audit_paths env;
     require_resolve := require_resolve env;
     package_json := package_json env;
     mkdir := f;
     stream_disk := stream_disk env;
     stream_events := stream_events env;
     terser_minify := terser_minify env;
     JSON_parse := JSON_parse env;
     cwd := cwd env |}.

Definition with_JSON_parse (f : string → option string) (env : Env) : Env :=
  {| COMMIT_HASH := COMMIT_HASH env;
     getAuditList := getAuditList env;
     getGathererList := getGathererList env;
     readdir_locales := readdir_locales env;
     plugin_audit_paths := plugin_audit_paths env;
     require_resolve := require_resolve env;
     package_json := package_json env;
     mkdir := mkdir env;
     stream_disk := stream_disk env;
     stream_events := stream_events env;
     terser_minify := terser_minify env;
     JSON_parse := f;
     cwd := cwd env |}.

(** The effects of the minifier stage. *)
Definition minifier_effect (eff : Effect) : bool :=
  match eff with
  | EReadFile _ | EMinify _ _ | EWriteFile _ _ => true
  | _ => false
  end.




(** * lighthouse-core/audits/sized-images.js

    The audit that flags images without usable [width] and [height]
    attributes.  [URL.elideDataURI], the i18n function [str_] and the column
    title [i18n.UIStrings.columnURL] come from other modules and are fields
    of [Lib]; [Audit.makeTableDetails] is kept as the pair of arguments it is
    called with. *)

Module SizedImages.

(** An element of [artifacts.ImageElements], with the fields the audit
    reads. *)
Record ImageElement : Type := {
  src : string;
  isCss : bool;
  attributeWidth : string;
  attributeHeight : string;
  devtoolsNodePath : string;
  selector : string;
  nodeLabel : string;
  snippet : string;
}.

Record NodeValue : Type := {
  node_type : string;
  node_path : string;
  node_selector : string;
  node_nodeLabel : string;
  node_snippet : string;
}.

Record Item : Type := { url : string; node : NodeValue }.

Record Heading : Type := { key : string; itemType : string; text : string }.

Record Product : Type := {
  score : nat;
  notApplicable : bool;
  (** the arguments of [Audit.makeTableDetails] *)
  details : list Heading * list Item;
}.

Record Lib : Type := {
  elideDataURI : string → string;
  str_ : string → string;
  columnURL : string;
}.

Definition UIStrings_columnFailingElem : string := "Failing Elements".

(** The character class [\d]. *)
Definition is_digit (c : ascii) : bool :=
  match c with
  | "0" | "1" | "2" | "3" | "4" | "5" | "6" | "7" | "8" | "9" => true
  | _ => false
  end%char.

Definition is_zero (c : ascii) : bool :=
  match c with
  | "0" => true
  | _ => false
  end%char.

Fixpoint all_chars (p : ascii → bool) (s : string) : bool :=
  match s with
  | EmptyString => true
  | String c t => p c && all_chars p t
  end.

(** [/^c+$/.test(s)] for a character class [c]: the whole string, at least
    one character long, is made of characters of the class. *)
Definition test_plus (p : ascii → bool) (s : string) : bool :=
  match s with
  | EmptyString => false
  | String _ _ => all_chars p s
  end.

Definition isValid (attr : string) : bool :=
  let NON_NEGATIVE_INT_REGEX := test_plus is_digit in
  let ZERO_REGEX := test_plus is_zero in
  NON_NEGATIVE_INT_REGEX attr && negb (ZERO_REGEX attr).

(** [!s] for a string: only the empty string is falsy. *)
Definition not_ (s : string) : bool :=
  match s with
  | EmptyString => true
  | String _ _ => false
  end.

(** The condition of line 68. *)
Definition unsized (image : ImageElement) : bool :=
  let width := attributeWidth image in
  let height := attributeHeight image in
  not_ width || not_ height || negb (isValid width) || negb (isValid height).

Definition item_of (lib : Lib) (image : ImageElement) : Item :=
  {| url := elideDataURI lib (src image);
     node := {| node_type := "node";
                node_path := devtoolsNodePath image;
                node_selector := selector image;
                node_nodeLabel := nodeLabel image;
                node_snippet := snippet image |} |}.

Definition audit (lib : Lib) (ImageElements : list ImageElement) : Product :=
  let images := List.filter (λ el, negb (isCss el)) ImageElements in
  let unsizedImages :=
    foldl (λ pushed image,
             if unsized image then pushed ++ [item_of lib image] else pushed)
          [] images in
  let headings :=
    [ {| key := "url"; itemType := "thumbnail"; text := "" |};
      {| key := "url"; itemType := "url"; text := str_ lib (columnURL lib) |};
      {| key := "node"; itemType := "node";
         text := str_ lib UIStrings_columnFailingElem |} ] in
  {| score := if 0 <? length unsizedImages then 0 else 1;
     notApplicable := length images =? 0;
     details := (headings, unsizedImages) |}.

(** An image that ends up in the table: not a CSS background image, and
    one of its two attributes is not valid. *)
Definition reported (image : ImageElement) : bool :=
  negb (isCss image)
  && negb (isValid (attributeWidth image) && isValid (attributeHeight image)).

(** The number written by a string of decimal digits, if it is one. *)
Definition digit_value (c : ascii) : option N :=
  if is_digit c then Some (N_of_ascii c - 48)%N else None.

Fixpoint decimal_go (acc : N) (s : string) : option N :=
  match s with
  | EmptyString => Some acc
  | String c t =>
      match digit_value c with
      | Some d => decimal_go (10 * acc + d)%N t
      | None => None
      end
  end.

Definition decimal (s : string) : option N :=
  match s with
  | EmptyString => None
  | String _ _ => decimal_go 0%N s
  end.

Definition demo_lib : Lib :=
  {| elideDataURI := λ u, u; str_ := λ m, m; columnURL := "URL" |}.

Definition demo_image (css : bool) (w h : string) : ImageElement :=
  {| src := "https://example.com/a.png"; isCss := css;
     attributeWidth := w; attributeHeight := h;
     devtoolsNodePath := "1,HTML,1,BODY,0,IMG"; selector := "body > img";
     nodeLabel := "img"; snippet := "<img>" |}.

End SizedImages.

(** ** Strings *)

Example replace_first_only :
  Js.replace "ab" "X" "zabab" = "zXab".
Proof. reflexivity. Qed.

Example strip_js_examples :
  Js.strip_js "sized-images.js" = "sized-images" ∧
  Js.strip_js "a.js.map" = "a.js.map" ∧
  Js.strip_js "js" = "js".
Proof. repeat split; reflexivity. Qed.

Example basename_examples :
  Path.basename "/lh/clients/devtools-entry.js" = "devtools-entry.js" ∧
  Path.basename "/lh/devtools/entry.js" = "entry.js" ∧
  Path.basename "a/b/" = "b" ∧
  Path.basename "/" = "".
Proof. repeat split; reflexivity. Qed.

Example dirname_examples :
  Path.dirname "/out/bundle.js" = "/out" ∧
  Path.dirname "bundle.js" = "." ∧
  Path.dirname "/bundle.js" = "/" ∧
  Path.dirname "a//b" = "a/" ∧
  Path.dirname "//b" = "//" ∧
  Path.dirname "a/" = ".".
Proof. repeat split; reflexivity. Qed.

Example resolve_examples :
  Path.resolve "/home/lh" "dist/../out/./b.js" = "/home/lh/out/b.js" ∧
  Path.resolve "/home/lh" "/abs//x.js" = "/abs/x.js" ∧
  Path.resolve "/home/lh" "" = "/home/lh" ∧
  Path.resolve "/" "../.." = "/".
Proof. repeat split; reflexivity. Qed.

Lemma startsWith_app (pat s : string) : Js.startsWith pat (pat +:+ s) = true.
Proof.
  induction pat as [|a pat IH]; [done|].
  change (Js.startsWith (String a pat) (String a (pat +:+ s)) = true).
  cbn. by rewrite Ascii.eqb_refl.
Qed.

Lemma slice_from_app (pat s : string) :
  Js.slice_from (String.length pat) (pat +:+ s) = s.
Proof. induction pat as [|a pat IH]; [by destruct s|]. exact IH. Qed.

Lemma replace_unfold (pat rep s : string) :
  Js.replace pat rep s =
  if Js.startsWith pat s then rep +:+ Js.slice_from (String.length pat) s
  else match s with
       | EmptyString => EmptyString
       | String c t => String c (Js.replace pat rep t)
       end.
Proof. by destruct s. Qed.

(** Replacing a pattern that the string starts with exchanges the prefix. *)
Lemma replace_prefix (pat rep s : string) :
  Js.replace pat rep (pat +:+ s) = rep +:+ s.
Proof.
  rewrite replace_unfold, startsWith_app. by rewrite slice_from_app.
Qed.

(** ** The calls made on the browserify instance *)

Lemma foldl_call (f : string → Call) (l : list string) (b : Bundler) :
  foldl (λ b x, call (f x) b) b l =
  {| entry := entry b; debug := debug b; calls := calls b ++ (f <$> l) |}.
Proof.
  revert b. induction l as [|x l IH]; intros b.
  - destruct b. cbn. by rewrite app_nil_r.
  - cbn [foldl]. rewrite IH. cbn. by rewrite <- app_assoc.
Qed.

Lemma audit_requires (env : Env) :
  (λ audit, Require audit (Some (Js.replace "./lighthouse-core/" "../" audit)))
    <$> audits env
  = row_call <$> (audit_row <$> getAuditList env).
Proof.
  unfold audits. rewrite <- !list_fmap_compose.
  apply list_fmap_ext. intros _ f _. cbn.
  unfold row_call, audit_row. cbn [fst snd].
  apply (f_equal (λ e, Require _ (Some e))).
  exact (replace_prefix "./lighthouse-core/" "../" ("audits/" +:+ Js.strip_js f)).
Qed.

Lemma gatherer_requires (env : Env) :
  (λ gatherer,
     Require gatherer
       (Some (Js.replace ("./lighthouse-core/" +:+ "gather/") "../gather/" gatherer)))
    <$> gatherers env
  = row_call <$> (gatherer_row <$> getGathererList env).
Proof.
  unfold gatherers. rewrite <- !list_fmap_compose.
  apply list_fmap_ext. intros _ f _. cbn.
  unfold row_call, gatherer_row. cbn [fst snd].
  apply (f_equal (λ e, Require _ (Some e))).
  exact (replace_prefix "./lighthouse-core/gather/" "../gather/"
           ("gatherers/" +:+ Js.strip_js f)).
Qed.

Lemma call_mk (c : Call) (e : string) (d : bool) (cs : list Call) :
  call c {| entry := e; debug := d; calls := cs |}
  = {| entry := e; debug := d; calls := cs ++ [c] |}.
Proof. reflexivity. Qed.

Lemma foldl_call_mk (f : string → Call) (l : list string)
    (e : string) (d : bool) (cs : list Call) :
  foldl (λ b x, call (f x) b) {| entry := e; debug := d; calls := cs |} l
  = {| entry := e; debug := d; calls := cs ++ (f <$> l) |}.
Proof. by rewrite foldl_call. Qed.

Lemma configure_calls (env : Env) (pkg : gmap string string) (entryPath : string) :
  package_json env = Some pkg →
  configure env entryPath =
  Returned {| entry := entryPath; debug := true;
              calls := setup_calls env pkg
                       ++ (Ignore <$> always_excluded env)
                       ++ target_ignores env entryPath
                       ++ (row_call <$> all_rows env entryPath) |}.
Proof.
  intros Hpkg. unfold configure, require_package_json. rewrite Hpkg.
  cbn [mbind Completion_bind mret Completion_ret].
  unfold target_ignores, all_rows, plugin_rows, pubAdsAudits, browserify.
  destruct (isDevtools entryPath), (isLightrider entryPath);
    cbn [orb];
    repeat first [rewrite call_mk | rewrite foldl_call_mk];
    rewrite audit_requires, gatherer_requires;
    do 2 f_equal;
    rewrite ?fmap_app, ?fmap_cons, <- ?list_fmap_compose, <- ?app_assoc;
    reflexivity.
Qed.

Lemma excluded_app (l1 l2 : list Call) :
  excluded (l1 ++ l2) = excluded l1 ++ excluded l2.
Proof. unfold excluded. apply bind_app. Qed.

Lemma registered_app (l1 l2 : list Call) :
  registered (l1 ++ l2) = registered l1 ++ registered l2.
Proof. unfold registered. apply omap_app. Qed.

Lemma excluded_ignores (l : list string) : excluded (Ignore <$> l) = l.
Proof. induction l as [|x l IH]; [done|]. cbn. by f_equal. Qed.

Lemma registered_ignores (l : list string) : registered (Ignore <$> l) = [].
Proof. by induction l. Qed.

Lemma excluded_rows (rows : list (string * option string)) :
  excluded (row_call <$> rows) = [].
Proof. by induction rows. Qed.

Lemma registered_rows (rows : list (string * option string)) :
  registered (row_call <$> rows) = rows.
Proof.
  induction rows as [|[f e] rows IH]; [done|]. cbn. by f_equal.
Qed.

Lemma registered_target_ignores (env : Env) (entryPath : string) :
  registered (target_ignores env entryPath) = [].
Proof.
  unfold target_ignores.
  by destruct (isDevtools entryPath), (isLightrider entryPath).
Qed.

Lemma elem_of_registered (cs : list Call) (f : string) (e : option string) :
  (f, e) ∈ registered cs ↔ Require f e ∈ cs.
Proof.
  unfold registered. rewrite list_elem_of_omap. split.
  - intros (c & Hc & Hrow). destruct c; simplify_eq. done.
  - intros Hc. by exists (Require f e).
Qed.

Lemma excluded_configured (env : Env) (pkg : gmap string string) (entryPath : string) :
  excluded (setup_calls env pkg ++ (Ignore <$> always_excluded env)
            ++ target_ignores env entryPath
            ++ (row_call <$> all_rows env entryPath))
  = always_excluded env ++ excluded (target_ignores env entryPath).
Proof.
  rewrite !excluded_app, excluded_ignores, excluded_rows, app_nil_r. done.
Qed.

Lemma registered_configured (env : Env) (pkg : gmap string string) (entryPath : string) :
  registered (setup_calls env pkg ++ (Ignore <$> always_excluded env)
              ++ target_ignores env entryPath
              ++ (row_call <$> all_rows env entryPath))
  = all_rows env entryPath.
Proof.
  rewrite !registered_app, registered_ignores, registered_target_ignores,
    registered_rows. done.
Qed.

(** ** The policy per entry point *)

(** C2: for an entry whose basename contains "devtools", the session ignores
    the report template module (html-report-assets.js) and every locale
    module, and registers the publisher-ads plugin together with each of its
    audit modules. *)
Theorem devtools_entry_policy (env : Env) (pkg : gmap string string)
    (entryPath : string) :
  package_json env = Some pkg →
  isDevtools entryPath = true →
  ∃ b, configure env entryPath = Returned b ∧
       Ignore (report_assets env) ∈ calls b ∧
       IgnoreAll (locales env) ∈ calls b ∧
       report_assets env ∈ excluded (calls b) ∧
       (∀ f, f ∈ readdir_locales env →
             require_resolve env ("../lighthouse-core/lib/i18n/locales/" +:+ f)
               ∈ excluded (calls b)) ∧
       Require "lighthouse-plugin-publisher-ads" None ∈ calls b ∧
       (∀ a, a ∈ plugin_audit_paths env → Require a None ∈ calls b).
Proof.
  intros Hpkg Hdev. eexists. split; [by apply configure_calls|].
  cbn [calls].
  assert (target_ignores env entryPath
          = [Ignore (report_assets env); IgnoreAll (locales env)]) as Htarget.
  { unfold target_ignores. by rewrite Hdev. }
  assert (∀ a, (a, None) ∈ plugin_rows env entryPath →
               Require a None ∈ setup_calls env pkg
                 ++ (Ignore <$> always_excluded env)
                 ++ target_ignores env entryPath
                 ++ (row_call <$> all_rows env entryPath)) as Hplugin.
  { intros a Ha. apply elem_of_registered. rewrite registered_configured.
    unfold all_rows. rewrite !elem_of_app. right. right. by left. }
  assert (excluded [Ignore (report_assets env); IgnoreAll (locales env)]
          = report_assets env :: locales env) as Hexcl.
  { cbn. by rewrite app_nil_r. }
  rewrite excluded_configured. rewrite Htarget in Hplugin |- *.
  rewrite Hexcl. repeat split.
  - rewrite !elem_of_app. right. right. left. apply elem_of_cons. by left.
  - rewrite !elem_of_app. right. right. left. apply elem_of_cons. right.
    apply elem_of_cons. by left.
  - apply elem_of_app. right. apply elem_of_cons. by left.
  - intros f Hf. apply elem_of_app. right. apply elem_of_cons. right.
    unfold locales.
    by apply (list_elem_of_fmap_2
                (λ f, require_resolve env
                        ("../lighthouse-core/lib/i18n/locales/" +:+ f))).
  - apply Hplugin. unfold plugin_rows. rewrite Hdev.
    apply elem_of_cons. by left.
  - intros a Ha. apply Hplugin. unfold plugin_rows, pubAdsAudits.
    rewrite Hdev. apply elem_of_cons. right.
    by apply (list_elem_of_fmap_2 (λ a, (a, None : option string))).
Qed.

Lemma devtools_entry_policy_witness :
  ∃ b, configure demo_env "/lh/clients/devtools-entry.js" = Returned b ∧
       Ignore (report_assets demo_env) ∈ calls b ∧
       IgnoreAll (locales demo_env) ∈ calls b ∧
       report_assets demo_env ∈ excluded (calls b) ∧
       (∀ f, f ∈ readdir_locales demo_env →
             require_resolve demo_env
               ("../lighthouse-core/lib/i18n/locales/" +:+ f)
               ∈ excluded (calls b)) ∧
       Require "lighthouse-plugin-publisher-ads" None ∈ calls b ∧
       (∀ a, a ∈ plugin_audit_paths demo_env → Require a None ∈ calls b).
Proof.
  apply (devtools_entry_policy demo_env demo_pkg "/lh/clients/devtools-entry.js");
    reflexivity.
Defined.

Lemma filter_ignore_ignores (l : list string) :
  filter (λ c, is_ignore c) (Ignore <$> l) = Ignore <$> l.
Proof.
  induction l as [|x l IH]; [done|].
  cbn [fmap list_fmap]. rewrite filter_cons_True by done. by f_equal.
Qed.

Lemma filter_ignore_rows (rows : list (string * option string)) :
  filter (λ c, is_ignore c) (row_call <$> rows) = [].
Proof.
  induction rows as [|r rows IH]; [done|].
  cbn [fmap list_fmap]. by rewrite filter_cons_False by (by intros []).
Qed.

(** C4: for an entry whose basename contains neither "devtools" nor
    "lightrider", the ignore calls are exactly those of the fixed list, so
    the exclusion list is the fixed list with neither the report template
    nor a locale call added; the registered modules are the audits, the
    gatherers and the url shim, and no module is registered the way the
    plugin and its audits are (without an exposed name). *)
Theorem plain_entry_policy (env : Env) (pkg : gmap string string)
    (entryPath : string) :
  package_json env = Some pkg →
  isDevtools entryPath = false →
  isLightrider entryPath = false →
  ∃ b, configure env entryPath = Returned b ∧
       filter (λ c, is_ignore c) (calls b) = Ignore <$> always_excluded env ∧
       excluded (calls b) =
         [ "source-map"; "debug/node"; "intl"; "intl-pluralrules"; "raven";
           "rimraf"; "pako/lib/zlib/inflate.js";
           require_resolve env "../lighthouse-core/gather/connections/cri.js" ] ∧
       registered (calls b) =
         (audit_row <$> getAuditList env)
         ++ (gatherer_row <$> getGathererList env) ++ [shim_row env] ∧
       (∀ p, Require p None ∉ calls b).
Proof.
  intros Hpkg Hdev Hlr. eexists. split; [by apply configure_calls|].
  cbn [calls].
  assert (target_ignores env entryPath = []) as Htarget.
  { unfold target_ignores. by rewrite Hdev, Hlr. }
  assert (all_rows env entryPath =
          (audit_row <$> getAuditList env)
          ++ (gatherer_row <$> getGathererList env) ++ [shim_row env]) as Hrows.
  { unfold all_rows, plugin_rows. by rewrite Hdev. }
  repeat split.
  - rewrite Htarget, !filter_app, filter_ignore_ignores, filter_ignore_rows.
    by rewrite app_nil_r.
  - rewrite excluded_configured, Htarget. by rewrite app_nil_r.
  - by rewrite registered_configured.
  - intros p Hp. apply elem_of_registered in Hp.
    rewrite registered_configured, Hrows in Hp.
    rewrite !elem_of_app, !list_elem_of_fmap, list_elem_of_singleton in Hp.
    destruct Hp as [(f & Hf & _)|[(f & Hf & _)|Hf]]; discriminate Hf.
Qed.

Lemma plain_entry_policy_witness :
  ∃ b, configure demo_env "/lh/lighthouse-cli/index.js" = Returned b ∧
       filter (λ c, is_ignore c) (calls b) = Ignore <$> always_excluded demo_env ∧
       excluded (calls b) =
         [ "source-map"; "debug/node"; "intl"; "intl-pluralrules"; "raven";
           "rimraf"; "pako/lib/zlib/inflate.js";
           require_resolve demo_env
             "../lighthouse-core/gather/connections/cri.js" ] ∧
       registered (calls b) =
         (audit_row <$> getAuditList demo_env)
         ++ (gatherer_row <$> getGathererList demo_env) ++ [shim_row demo_env] ∧
       (∀ p, Require p None ∉ calls b).
Proof.
  apply (plain_entry_policy demo_env demo_pkg "/lh/lighthouse-cli/index.js");
    reflexivity.
Defined.

(** ** Order of the calls *)














(** ** Logical load paths *)

(** C8: each audit is registered under the path obtained from its on-disk
    path by exchanging the prefix "./lighthouse-core/" for "../", each
    gatherer under the one obtained by exchanging
    "./lighthouse-core/gather/" for "../gather/"; the registrations of the
    session are these rows, one per audit and per gatherer in list order,
    followed by the rows of the plugin (if any) and of the url shim. *)
Theorem logical_load_paths (env : Env) (pkg : gmap string string)
    (entryPath : string) :
  package_json env = Some pkg →
  ∃ b, configure env entryPath = Returned b ∧
       registered (calls b) =
         (audit_row <$> getAuditList env)
         ++ (gatherer_row <$> getGathererList env)
         ++ plugin_rows env entryPath ++ [shim_row env] ∧
       (∀ audit, audit ∈ audits env →
          ∃ rest, audit = "./lighthouse-core/" +:+ rest ∧
                  Js.replace "./lighthouse-core/" "../" audit = "../" +:+ rest ∧
                  Require audit (Some ("../" +:+ rest)) ∈ calls b) ∧
       (∀ gatherer, gatherer ∈ gatherers env →
          ∃ rest, gatherer = "./lighthouse-core/gather/" +:+ rest ∧
                  Js.replace "./lighthouse-core/gather/" "../gather/" gatherer
                    = "../gather/" +:+ rest ∧
                  Require gatherer (Some ("../gather/" +:+ rest)) ∈ calls b).
Proof.
  intros Hpkg. eexists. split; [by apply configure_calls|].
  cbn [calls]. split; [by rewrite registered_configured|]. split.
  - intros audit Haudit. unfold audits in Haudit.
    apply list_elem_of_fmap in Haudit as (f & -> & Hf).
    exists ("audits/" +:+ Js.strip_js f). split; [done|]. split.
    + exact (replace_prefix "./lighthouse-core/" "../"
               ("audits/" +:+ Js.strip_js f)).
    + apply elem_of_registered. rewrite registered_configured.
      unfold all_rows. apply elem_of_app. left.
      by apply (list_elem_of_fmap_2 audit_row _ f).
  - intros gatherer Hgatherer. unfold gatherers in Hgatherer.
    apply list_elem_of_fmap in Hgatherer as (f & -> & Hf).
    exists ("gatherers/" +:+ Js.strip_js f). split; [done|]. split.
    + exact (replace_prefix "./lighthouse-core/gather/" "../gather/"
               ("gatherers/" +:+ Js.strip_js f)).
    + apply elem_of_registered. rewrite registered_configured.
      unfold all_rows. apply elem_of_app. right. apply elem_of_app. left.
      by apply (list_elem_of_fmap_2 gatherer_row _ f).
Qed.

Lemma logical_load_paths_witness :
  ∃ b, configure demo_env "/lh/clients/devtools-entry.js" = Returned b ∧
       registered (calls b) =
         (audit_row <$> getAuditList demo_env)
         ++ (gatherer_row <$> getGathererList demo_env)
         ++ plugin_rows demo_env "/lh/clients/devtools-entry.js"
         ++ [shim_row demo_env] ∧
       (∀ audit, audit ∈ audits demo_env →
          ∃ rest, audit = "./lighthouse-core/" +:+ rest ∧
                  Js.replace "./lighthouse-core/" "../" audit = "../" +:+ rest ∧
                  Require audit (Some ("../" +:+ rest)) ∈ calls b) ∧
       (∀ gatherer, gatherer ∈ gatherers demo_env →
          ∃ rest, gatherer = "./lighthouse-core/gather/" +:+ rest ∧
                  Js.replace "./lighthouse-core/gather/" "../gather/" gatherer
                    = "../gather/" +:+ rest ∧
                  Require gatherer (Some ("../gather/" +:+ rest)) ∈ calls b).
Proof.
  apply (logical_load_paths demo_env demo_pkg "/lh/clients/devtools-entry.js").
  reflexivity.
Defined.

(** ** Effects of a run *)

Lemma effects_of_trace {A} (m : M A) (w : World) (es : list Effect) :
  trace (m w).2 = trace w ++ es → effects_of m w = es.
Proof. intros Htrace. unfold effects_of. by rewrite Htrace, drop_app_length. Qed.

(** ** A missing package.json *)

(** C3: when package.json cannot be read, [build] rejects and the world is
    the one it started from: no effect at all has been performed, so no
    write stream was opened on [distPath], no map extraction was set up and
    no file was written. *)
Theorem build_fails_before_any_write (env : Env) (entryPath distPath : string)
    (w : World) :
  package_json env = None →
  build env entryPath distPath w = (Thrown (ModuleNotFound "../package.json"), w) ∧
  effects_of (build env entryPath distPath) w = [] ∧
  files (build env entryPath distPath w).2 = files w.
Proof.
  intros Hpkg.
  assert (build env entryPath distPath w
          = (Thrown (ModuleNotFound "../package.json"), w)) as Hrun.
  { unfold build, browserifyFile, configure, require_package_json.
    by rewrite Hpkg. }
  split; [done|]. split; [|by rewrite Hrun].
  apply effects_of_trace. rewrite Hrun. by rewrite app_nil_r.
Qed.

Lemma build_fails_before_any_write_witness :
  let env := checkout None [Emit WriteStream Finish] minifier_ok in
  let w := world_of ∅ in
  build env "/lh/lighthouse-cli/index.js" "/out/b.js" w
    = (Thrown (ModuleNotFound "../package.json"), w) ∧
  effects_of (build env "/lh/lighthouse-cli/index.js" "/out/b.js") w = [] ∧
  files (build env "/lh/lighthouse-cli/index.js" "/out/b.js" w).2 = files w.
Proof.
  apply (build_fails_before_any_write
           (checkout None [Emit WriteStream Finish] minifier_ok)
           "/lh/lighthouse-cli/index.js" "/out/b.js" (world_of ∅)).
  reflexivity.
Defined.

(** ** The minifier stage *)

(** The five ways a run of [minifyScript] can go, each with its completion,
    the effects it performed and the files it leaves. *)
Lemma minifyScript_cases (env : Env) (filePath : string) (w : World) :
  let mapPath := filePath +:+ ".map" in
  let out := minifyScript env filePath w in
  let effects := effects_of (minifyScript env filePath) w in
  (files w !! filePath = None ∧
   out.1 = Thrown (ENOENT filePath) ∧
   effects = [EReadFile filePath] ∧ files out.2 = files w)
  ∨ (∃ input,
       files w !! filePath = Some input ∧ files w !! mapPath = None ∧
       out.1 = Thrown (ENOENT mapPath) ∧
       effects = [EReadFile filePath; EReadFile mapPath] ∧
       files out.2 = files w)
  ∨ (∃ input mapText,
       files w !! filePath = Some input ∧ files w !! mapPath = Some mapText ∧
       JSON_parse env mapText = None ∧
       out.1 = Thrown (JsonSyntaxError mapText) ∧
       effects = [EReadFile filePath; EReadFile mapPath] ∧
       files out.2 = files w)
  ∨ (∃ input mapText content e,
       files w !! filePath = Some input ∧ files w !! mapPath = Some mapText ∧
       JSON_parse env mapText = Some content ∧
       error (terser_minify env input (minify_options filePath content)) = Some e ∧
       out.1 = Thrown e ∧
       effects = [EReadFile filePath; EReadFile mapPath;
                  EMinify input (minify_options filePath content)] ∧
       files out.2 = files w)
  ∨ (∃ input mapText content,
       let result := terser_minify env input (minify_options filePath content) in
       files w !! filePath = Some input ∧ files w !! mapPath = Some mapText ∧
       JSON_parse env mapText = Some content ∧
       error result = None ∧
       out.1 = Returned tt ∧
       effects = [EReadFile filePath; EReadFile mapPath;
                  EMinify input (minify_options filePath content);
                  EWriteFile filePath (code result);
                  EWriteFile mapPath (map result)] ∧
       files out.2 = <[mapPath := map result]> (<[filePath := code result]> (files w))).
Proof.
  cbn zeta.
  unfold effects_of, minifyScript, readFileSync, parse_json, minify,
    writeFileSync, throw, mbind, M_bind, mret, M_ret.
  cbn [files log trace].
  destruct (files w !! filePath) as [input|] eqn:Hin; cbn [files log trace fst snd].
  2:{ left. by rewrite drop_app_length. }
  right.
  destruct (files w !! (filePath +:+ ".map")) as [mapText|] eqn:Hmap;
    cbn [files log trace fst snd].
  2:{ left. exists input. by rewrite <- app_assoc, drop_app_length. }
  right.
  destruct (JSON_parse env mapText) as [content|] eqn:Hjson;
    cbn [files log trace fst snd].
  2:{ left. exists input, mapText. by rewrite <- app_assoc, drop_app_length. }
  right.
  destruct (error (terser_minify env input (minify_options filePath content)))
    as [e|] eqn:Herr; cbn [files log set_files trace fst snd].
  - left. exists input, mapText, content, e.
    by rewrite <- !app_assoc, drop_app_length.
  - right. exists input, mapText, content.
    by rewrite <- !app_assoc, drop_app_length.
Qed.

Ltac minify_run env filePath w :=
  destruct (minifyScript_cases env filePath w)
    as [(Hin & Hout & Heff & Hfiles)
       |[(input0 & Hin & Hmap & Hout & Heff & Hfiles)
        |[(input0 & mapText0 & Hin & Hmap & Hjson & Hout & Heff & Hfiles)
         |[(input0 & mapText0 & content0 & e0 & Hin & Hmap & Hjson & Herr
            & Hout & Heff & Hfiles)
          |(input0 & mapText0 & content0 & Hin & Hmap & Hjson & Herr
            & Hout & Heff & Hfiles)]]]];
  cbn zeta in *.

(** Membership of an effect in an explicit list of effects. *)
Ltac effect_cases H :=
  apply list_elem_of_In in H; cbn [In] in H;
  repeat match type of H with _ ∨ _ => destruct H as [H|H] end;
  try discriminate H; try contradiction.

Ltac no_such_effect :=
  let H := fresh "Hin" in intros ? ? H; effect_cases H.

(** C5: whenever a call of [minifyScript] reaches the minifier, the call
    was made on the text read from [filePath]; if the result carries an
    error, [minifyScript] throws that error, performs no write and leaves
    the files as they were; if it carries none, [minifyScript] returns
    after writing the minified code to [filePath] and the new map to
    [filePath + ".map"]. *)
Theorem minifyScript_error_or_overwrite (env : Env) (filePath : string)
    (w : World) (input : string) (opts : MinifyOptions) :
  EMinify input opts ∈ effects_of (minifyScript env filePath) w →
  let result := terser_minify env input opts in
  let out := minifyScript env filePath w in
  files w !! filePath = Some input ∧
  match error result with
  | Some e =>
      out.1 = Thrown e ∧ files out.2 = files w ∧
      (∀ p d, EWriteFile p d ∉ effects_of (minifyScript env filePath) w)
  | None =>
      out.1 = Returned tt ∧
      files out.2 = <[filePath +:+ ".map" := map result]>
                      (<[filePath := code result]> (files w)) ∧
      effects_of (minifyScript env filePath) w
        = [EReadFile filePath; EReadFile (filePath +:+ ".map");
           EMinify input opts;
           EWriteFile filePath (code result);
           EWriteFile (filePath +:+ ".map") (map result)]
  end.
Proof.
  intros Hcall. cbn zeta.
  minify_run env filePath w; rewrite Heff in Hcall |- *; effect_cases Hcall.
  - injection Hcall as -> <-. rewrite Herr.
    repeat split; [done..|]. no_such_effect.
  - injection Hcall as -> <-. rewrite Herr. done.
Qed.

Lemma minifyScript_error_or_overwrite_witness :
  let env := checkout (Some demo_pkg) [] minifier_failing in
  let w := world_of {[ "/out/b.js" := "bundle"; "/out/b.js.map" := "{}" ]} in
  let out := minifyScript env "/out/b.js" w in
  files w !! "/out/b.js" = Some "bundle" ∧
  out.1 = Thrown (MinifyError "Unexpected token") ∧ files out.2 = files w ∧
  (∀ p d, EWriteFile p d ∉ effects_of (minifyScript env "/out/b.js") w).
Proof.
  apply (minifyScript_error_or_overwrite
           (checkout (Some demo_pkg) [] minifier_failing) "/out/b.js"
           (world_of {[ "/out/b.js" := "bundle"; "/out/b.js.map" := "{}" ]})
           "bundle" (minify_options "/out/b.js" "{}")).
  vm_compute. apply list_elem_of_In. right. right. left. reflexivity.
Defined.

(** C6: whatever the file, the environment and the world, every call that
    [minifyScript] makes to the minifier keeps function names and class
    names and reserves exactly ChromeProtocol, mkdirp, rimraf and fs; only
    the source map entries of the options vary with the file. *)
Theorem minify_policy_fixed (env : Env) (filePath : string) (w : World)
    (input : string) (opts : MinifyOptions) :
  EMinify input opts ∈ effects_of (minifyScript env filePath) w →
  keep_fnames opts = true ∧
  keep_classnames opts = true ∧
  mangle_reserved opts = ["ChromeProtocol"; "mkdirp"; "rimraf"; "fs"] ∧
  opts = {| output_comments := "^!";
            output_max_line_len := 1000;
            keep_classnames := true;
            keep_fnames := true;
            mangle_reserved := ["ChromeProtocol"; "mkdirp"; "rimraf"; "fs"];
            sourceMap_content := sourceMap_content opts;
            sourceMap_url := sourceMap_url opts |}.
Proof.
  intros Hcall.
  minify_run env filePath w; rewrite Heff in Hcall; effect_cases Hcall.
  - by injection Hcall as -> <-.
  - by injection Hcall as -> <-.
Qed.

Lemma minify_policy_fixed_witness :
  let opts := minify_options "/out/b.js" "{}" in
  keep_fnames opts = true ∧
  keep_classnames opts = true ∧
  mangle_reserved opts = ["ChromeProtocol"; "mkdirp"; "rimraf"; "fs"] ∧
  opts = {| output_comments := "^!";
            output_max_line_len := 1000;
            keep_classnames := true;
            keep_fnames := true;
            mangle_reserved := ["ChromeProtocol"; "mkdirp"; "rimraf"; "fs"];
            sourceMap_content := sourceMap_content opts;
            sourceMap_url := sourceMap_url opts |}.
Proof.
  apply (minify_policy_fixed demo_env "/out/b.js"
           (world_of {[ "/out/b.js" := "bundle"; "/out/b.js.map" := "{}" ]})
           "bundle" (minify_options "/out/b.js" "{}")).
  vm_compute. apply list_elem_of_In. right. right. left. reflexivity.
Defined.

(** C10: a call to the minifier is the third effect of a run, after the
    read of [filePath] and the read of [filePath + ".map"]; and when one of
    the two files cannot be read, [minifyScript] throws the read error
    without calling the minifier and without a write, so the files are the
    ones it started from. *)
Theorem minifyScript_reads_first (env : Env) (filePath : string) (w : World) :
  let out := minifyScript env filePath w in
  let effects := effects_of (minifyScript env filePath) w in
  (∀ i input opts,
     effects !! i = Some (EMinify input opts) →
     i = 2 ∧ effects !! 0 = Some (EReadFile filePath) ∧
     effects !! 1 = Some (EReadFile (filePath +:+ ".map")) ∧
     files w !! filePath = Some input) ∧
  (files w !! filePath = None ∨ files w !! (filePath +:+ ".map") = None →
   ∃ p, (p = filePath ∨ p = filePath +:+ ".map") ∧
        out.1 = Thrown (ENOENT p) ∧
        files out.2 = files w ∧
        (∀ input opts, EMinify input opts ∉ effects) ∧
        (∀ q d, EWriteFile q d ∉ effects)).
Proof.
  cbn zeta. split.
  - intros i input opts Hi.
    minify_run env filePath w; rewrite Heff in Hi |- *;
      (destruct i as [|[|[|[|[|i]]]]]; simplify_eq/=; done).
  - intros Hmissing.
    minify_run env filePath w; rewrite Heff.
    + exists filePath.
      repeat split; [by left|done..|no_such_effect|no_such_effect].
    + exists (filePath +:+ ".map").
      repeat split; [by right|done..|no_such_effect|no_such_effect].
    + destruct Hmissing; congruence.
    + destruct Hmissing; congruence.
    + destruct Hmissing; congruence.
Qed.

Lemma minifyScript_reads_first_witness :
  let w := world_of {[ "/out/b.js" := "bundle" ]} in
  let out := minifyScript demo_env "/out/b.js" w in
  let effects := effects_of (minifyScript demo_env "/out/b.js") w in
  ∃ p, (p = "/out/b.js" ∨ p = "/out/b.js" +:+ ".map") ∧
       out.1 = Thrown (ENOENT p) ∧
       files out.2 = files w ∧
       (∀ input opts, EMinify input opts ∉ effects) ∧
       (∀ q d, EWriteFile q d ∉ effects).
Proof.
  apply (proj2 (minifyScript_reads_first demo_env "/out/b.js"
                  (world_of {[ "/out/b.js" := "bundle" ]}))).
  right. vm_compute. reflexivity.
Defined.

(** ** The command line *)

Lemma resolve_absolute (base p : string) :
  Path.isAbsolute (Path.resolve base p) = true.
Proof. unfold Path.isAbsolute, Path.resolve. apply startsWith_app. Qed.

(** C9: [cli] hands to [build] the third and the fourth element of the
    argument vector (the two arguments after the interpreter and the script
    path), each resolved against the working directory into an absolute
    path; what [build] does is all that happens to the world; [cli] itself
    completes normally whatever [build] does, and a rejection of [build] is
    left as an unhandled rejection. *)
Theorem cli_invokes_build (env : Env) (argv : list string) (w : World) :
  let entryPath := Path.resolve (cwd env) <$> argv !! 2 in
  let distPath := Path.resolve (cwd env) <$> argv !! 3 in
  let run := build_dyn env entryPath distPath w in
  (cli env argv w).1 = Returned tt ∧
  (cli env argv w).2 = match run.1 with
                       | Thrown e => add_unhandled e run.2
                       | _ => run.2
                       end ∧
  (∀ node script e d rest,
     argv = node :: script :: e :: d :: rest →
     run = build env (Path.resolve (cwd env) e) (Path.resolve (cwd env) d) w) ∧
  (∀ p, entryPath = Some p ∨ distPath = Some p → Path.isAbsolute p = true).
Proof.
  cbn zeta. unfold cli.
  rewrite !list_lookup_fmap, !lookup_drop. cbn [Nat.add].
  repeat split.
  - by destruct (build_dyn env _ _ w) as [[] ?].
  - by destruct (build_dyn env _ _ w) as [[] ?].
  - by intros node script e d rest ->.
  - intros p [Hp|Hp];
      apply fmap_Some in Hp as (q & _ & ->); apply resolve_absolute.
Qed.

(** ** Settling the promise of [browserifyFile] *)

Lemma emit_write_stream (st : PromiseState * list Error) (ev : StreamEvent) :
  emit st (Emit WriteStream ev)
  = (settle ev st.1 (match ev with Finish => resolve | Failed _ => reject end),
     st.2).
Proof. by destruct ev. Qed.

Lemma emit_upstream (st : PromiseState * list Error) (s : Stream) (ev : StreamEvent) :
  s ≠ WriteStream →
  emit st (Emit s ev)
  = (st.1, match ev with Finish => st.2 | Failed e => st.2 ++ [e] end).
Proof. by destruct s, ev. Qed.

Lemma settled_stays (evs : list Emitted) (st : PromiseState * list Error) :
  st.1 ≠ Pending → (foldl emit st evs).1 = st.1.
Proof.
  revert st. induction evs as [|[s ev] evs IH]; intros st Hst; [done|].
  cbn [foldl]. rewrite IH.
  - destruct s; [by rewrite emit_upstream..|].
    rewrite emit_write_stream. by destruct st as [[] ?], ev.
  - destruct s; [by rewrite emit_upstream..|].
    rewrite emit_write_stream. by destruct st as [[] ?], ev.
Qed.

(** The promise is fulfilled only if the write stream emitted 'finish'. *)
Lemma fulfilled_only_after_finish (evs : list Emitted) :
  (run_streams evs).1 = Fulfilled → Emit WriteStream Finish ∈ evs.
Proof.
  unfold run_streams.
  assert (∀ st, (foldl emit st evs).1 = Fulfilled →
                st.1 = Fulfilled ∨ Emit WriteStream Finish ∈ evs) as Hgen.
  { induction evs as [|[s ev] evs IH]; intros st Hst; [by left|].
    cbn [foldl] in Hst. apply IH in Hst as [Hst|Hst]; [|set_solver].
    destruct s; [rewrite emit_upstream in Hst by done; by left..|].
    rewrite emit_write_stream in Hst.
    destruct st as [[] ?], ev; simplify_eq/=; set_solver. }
  intros Hst. by apply Hgen in Hst as [Hst|Hst].
Qed.

(** The promise is rejected only with an error of the write stream. *)
Lemma rejected_only_by_write_error (evs : list Emitted) (e : Error) :
  (run_streams evs).1 = Rejected e → Emit WriteStream (Failed e) ∈ evs.
Proof.
  unfold run_streams.
  assert (∀ st, (foldl emit st evs).1 = Rejected e →
                st.1 = Rejected e ∨ Emit WriteStream (Failed e) ∈ evs) as Hgen.
  { induction evs as [|[s ev] evs IH]; intros st Hst; [by left|].
    cbn [foldl] in Hst. apply IH in Hst as [Hst|Hst]; [|set_solver].
    destruct s; [rewrite emit_upstream in Hst by done; by left..|].
    rewrite emit_write_stream in Hst.
    destruct st as [[] ?], ev; simplify_eq/=; set_solver. }
  intros Hst. by apply Hgen in Hst as [Hst|Hst].
Qed.

(** An error of the write stream that arrives while the promise is pending
    rejects it. *)
Lemma write_error_rejects (before after : list Emitted) (e : Error) :
  (run_streams before).1 = Pending →
  (run_streams (before ++ Emit WriteStream (Failed e) :: after)).1 = Rejected e.
Proof.
  unfold run_streams. intros Hpending.
  rewrite foldl_app. cbn [foldl]. rewrite settled_stays.
  - rewrite emit_write_stream. cbn. by rewrite Hpending.
  - rewrite emit_write_stream. cbn. by rewrite Hpending.
Qed.

(** Errors of the bundle stream and of the exorcist stream never settle the
    promise: each of them is an uncaught exception. *)
Lemma upstream_errors_leave_pending (evs : list Emitted) :
  Forall (λ em, source em ≠ WriteStream) evs →
  run_streams evs
  = (Pending, evs ≫= λ em, match event em with Finish => [] | Failed e => [e] end).
Proof.
  unfold run_streams. intros Hup.
  assert (∀ st, foldl emit st evs
                = (st.1, st.2 ++ (evs ≫= λ em, match event em with
                                               | Finish => []
                                               | Failed e => [e]
                                               end))) as Hgen.
  { induction Hup as [|[s ev] evs Hs _ IH]; intros st.
    - cbn. rewrite app_nil_r. by destruct st.
    - cbn [foldl]. rewrite IH, emit_upstream by done.
      destruct ev; cbn; [done|]. by rewrite <- app_assoc. }
  by rewrite Hgen.
Qed.

(** What [browserifyFile] does once package.json is read and the
    destination directory exists. *)
Lemma browserifyFile_run (env : Env) (pkg : gmap string string)
    (entryPath distPath : string) (w : World) :
  package_json env = Some pkg →
  mkdir env (Path.dirname distPath) = None →
  ∃ b, configure env entryPath = Returned b ∧
       (browserifyFile env entryPath distPath w).1
       = match (run_streams (stream_events env b)).1 with
         | Fulfilled => Returned tt
         | Rejected e => Thrown e
         | Pending => Suspended
         end ∧
       uncaught (browserifyFile env entryPath distPath w).2
       = uncaught w ++ (run_streams (stream_events env b)).2 ∧
       effects_of (browserifyFile env entryPath distPath) w
       = [EBundle b; EMkdir (Path.dirname distPath);
          ECreateWriteStream distPath; EExorcist (distPath +:+ ".map")].
Proof.
  intros Hpkg Hmkdir. eexists. split; [by apply configure_calls|].
  unfold effects_of, browserifyFile, lift, perform, await_mkdir, pipe_to_disk,
    mbind, M_bind.
  rewrite (configure_calls env pkg entryPath Hpkg), Hmkdir.
  cbn [fst snd log set_files add_uncaught trace uncaught files].
  repeat split. by rewrite <- !app_assoc, drop_app_length.
Qed.

(** C1, at a failing input: the bundle stream emits an 'error' event (a
    module of the entry point does not parse).  The promise returned by
    [browserifyFile] is neither rejected nor fulfilled: it stays pending,
    and the error is an uncaught exception of the process. *)
Theorem bundler_error_never_rejects :
  let env := checkout (Some demo_pkg)
               [Emit BundleStream (Failed (StreamError "ParseError"))]
               minifier_ok in
  let out := browserifyFile env "/lh/lighthouse-cli/index.js" "/out/b.js"
               (world_of ∅) in
  out.1 = Suspended ∧
  out.1 ≠ Thrown (StreamError "ParseError") ∧
  uncaught out.2 = [StreamError "ParseError"].
Proof. cbn zeta. repeat split. discriminate. Qed.

(** Whatever the bundle stream and the exorcist stream emit, as long as the
    write stream emits nothing the promise of [browserifyFile] stays
    pending. *)
Lemma upstream_events_suspend (env : Env) (pkg : gmap string string)
    (entryPath distPath : string) (w : World) :
  package_json env = Some pkg →
  mkdir env (Path.dirname distPath) = None →
  (∀ b, Forall (λ em, source em ≠ WriteStream) (stream_events env b)) →
  (browserifyFile env entryPath distPath w).1 = Suspended.
Proof.
  intros Hpkg Hmkdir Hup.
  destruct (browserifyFile_run env pkg entryPath distPath w Hpkg Hmkdir)
    as (b & _ & -> & _).
  by rewrite (upstream_errors_leave_pending _ (Hup b)).
Qed.

(** A rejection of [browserifyFile] that comes out of the streaming phase
    carries an error of the write stream. *)
Lemma browserifyFile_rejection (env : Env) (pkg : gmap string string)
    (entryPath distPath : string) (w : World) (e : Error) :
  package_json env = Some pkg →
  mkdir env (Path.dirname distPath) = None →
  (browserifyFile env entryPath distPath w).1 = Thrown e →
  ∃ b, configure env entryPath = Returned b ∧
       Emit WriteStream (Failed e) ∈ stream_events env b.
Proof.
  intros Hpkg Hmkdir Hthrown.
  destruct (browserifyFile_run env pkg entryPath distPath w Hpkg Hmkdir)
    as (b & Hb & Hout & _).
  exists b. split; [done|]. apply rejected_only_by_write_error.
  rewrite Hout in Hthrown.
  destruct (run_streams (stream_events env b)).1; by simplify_eq.
Qed.

(** ** The script at work on the small checkout *)

Example build_demo :
  let out := build demo_env "/lh/lighthouse-cli/index.js" "/out/b.js"
               (world_of ∅) in
  out.1 = Returned tt ∧
  files out.2 !! "/out/b.js" = Some "min:bundle" ∧
  files out.2 !! "/out/b.js.map" = Some "{min}".
Proof. vm_compute. done. Qed.

Example cli_demo :
  let out := cli demo_env ["node"; "build-bundle.js"; "lighthouse-cli/index.js";
                           "dist/b.js"] (world_of ∅) in
  out.1 = Returned tt ∧
  files out.2 !! "/lh/dist/b.js" = Some "min:bundle" ∧
  unhandled out.2 = [].
Proof. vm_compute. done. Qed.

Example cli_short_argv :
  let out := cli demo_env ["node"; "build-bundle.js"; "a.js"] (world_of ∅) in
  out.1 = Returned tt ∧
  unhandled out.2 = [TypeError "path.dirname"] ∧
  files out.2 = ∅.
Proof. vm_compute. done. Qed.

Example write_error_demo :
  let env := checkout (Some demo_pkg)
               [Emit WriteStream (Failed (StreamError "EACCES"))] minifier_ok in
  (build env "/lh/lighthouse-cli/index.js" "/out/b.js" (world_of ∅)).1
  = Thrown (StreamError "EACCES").
Proof. vm_compute. done. Qed.

(** * Further properties of the build script *)

(** ** The other entry points *)

(** For an entry whose basename contains "lightrider" but not "devtools"
    (lines 80-88 and 103): the report template is the one module ignored on
    top of the fixed list, the locales stay in, and the plugin is not
    registered. *)
Theorem lightrider_entry_policy (env : Env) (pkg : gmap string string)
    (entryPath : string) :
  package_json env = Some pkg →
  isDevtools entryPath = false →
  isLightrider entryPath = true →
  ∃ b, configure env entryPath = Returned b ∧
       filter (λ c, is_ignore c) (calls b)
         = Ignore <$> (always_excluded env ++ [report_assets env]) ∧
       excluded (calls b) = always_excluded env ++ [report_assets env] ∧
       registered (calls b) =
         (audit_row <$> getAuditList env)
         ++ (gatherer_row <$> getGathererList env) ++ [shim_row env] ∧
       (∀ p, Require p None ∉ calls b).
Proof.
  intros Hpkg Hdev Hlr. eexists. split; [by apply configure_calls|].
  cbn [calls].
  assert (target_ignores env entryPath = [Ignore (report_assets env)]) as Htarget.
  { unfold target_ignores. by rewrite Hdev, Hlr. }
  assert (all_rows env entryPath =
          (audit_row <$> getAuditList env)
          ++ (gatherer_row <$> getGathererList env) ++ [shim_row env]) as Hrows.
  { unfold all_rows, plugin_rows. by rewrite Hdev. }
  repeat split.
  - rewrite Htarget, !filter_app, filter_ignore_ignores, filter_ignore_rows.
    rewrite fmap_app, app_nil_r. done.
  - by rewrite excluded_configured, Htarget.
  - by rewrite registered_configured.
  - intros p Hp. apply elem_of_registered in Hp.
    rewrite registered_configured, Hrows in Hp.
    rewrite !elem_of_app, !list_elem_of_fmap, list_elem_of_singleton in Hp.
    destruct Hp as [(f & Hf & _)|[(f & Hf & _)|Hf]]; discriminate Hf.
Qed.

Lemma lightrider_entry_policy_witness :
  ∃ b, configure demo_env "/lh/clients/lightrider/lightrider-entry.js"
         = Returned b ∧
       filter (λ c, is_ignore c) (calls b)
         = Ignore <$> (always_excluded demo_env ++ [report_assets demo_env]) ∧
       excluded (calls b) = always_excluded demo_env ++ [report_assets demo_env] ∧
       registered (calls b) =
         (audit_row <$> getAuditList demo_env)
         ++ (gatherer_row <$> getGathererList demo_env) ++ [shim_row demo_env] ∧
       (∀ p, Require p None ∉ calls b).
Proof.
  apply (lightrider_entry_policy demo_env demo_pkg
           "/lh/clients/lightrider/lightrider-entry.js"); reflexivity.
Defined.

Lemma elem_of_configured (env : Env) (pkg : gmap string string)
    (entryPath : string) (c : Call) :
  c ∈ setup_calls env pkg ++ (Ignore <$> always_excluded env)
      ++ target_ignores env entryPath ++ (row_call <$> all_rows env entryPath)
  ↔ c ∈ setup_calls env pkg ∨ (∃ m, m ∈ always_excluded env ∧ c = Ignore m)
    ∨ c ∈ target_ignores env entryPath
    ∨ (∃ r, r ∈ all_rows env entryPath ∧ c = row_call r).
Proof.
  rewrite !elem_of_app, !list_elem_of_fmap.
  split; intros [H|[(m & H1 & H2)|[H|(r & H1 & H2)]]]; eauto 10.
Qed.

(** The calls that depend on the target are made for that target only
    (lines 80-88, 103-108): an array of modules is ignored exactly for a
    devtools entry, a module is registered without an exposed name exactly
    for a devtools entry, and the number of [ignore] calls is eight, plus
    one for devtools or lightrider, plus one for devtools. *)
Theorem target_calls_only_for_their_target (env : Env)
    (pkg : gmap string string) (entryPath : string) :
  package_json env = Some pkg →
  ∃ b, configure env entryPath = Returned b ∧
       ((∃ l, IgnoreAll l ∈ calls b) ↔ isDevtools entryPath = true) ∧
       ((∃ p, Require p None ∈ calls b) ↔ isDevtools entryPath = true) ∧
       length (filter (λ c, is_ignore c) (calls b))
       = 8 + (if isDevtools entryPath || isLightrider entryPath then 1 else 0)
           + (if isDevtools entryPath then 1 else 0).
Proof.
  intros Hpkg. eexists. split; [by apply configure_calls|].
  cbn [calls]. repeat split.
  - intros (l & Hl). apply elem_of_configured in Hl
      as [Hl|[(m & _ & Hl)|[Hl|(r & _ & Hl)]]]; try discriminate Hl.
    + unfold setup_calls in Hl. rewrite !elem_of_cons in Hl.
      destruct Hl as [Hl|[Hl|[Hl|Hl]]]; try discriminate Hl.
      by apply elem_of_nil in Hl.
    + unfold target_ignores in Hl.
      destruct (isDevtools entryPath); [done|].
      destruct (isLightrider entryPath); cbn in Hl.
      * apply list_elem_of_singleton in Hl. discriminate Hl.
      * by apply elem_of_nil in Hl.
  - intros Hdev. exists (locales env). apply elem_of_configured.
    right. right. left. unfold target_ignores. rewrite Hdev. cbn.
    apply elem_of_cons. right. apply elem_of_cons. by left.
  - intros (p & Hp). apply elem_of_registered in Hp.
    rewrite registered_configured in Hp. unfold all_rows, plugin_rows in Hp.
    destruct (isDevtools entryPath); [done|].
    rewrite !elem_of_app, !list_elem_of_fmap, list_elem_of_singleton in Hp.
    destruct Hp as [(f & Hf & _)|[(f & Hf & _)|[Hf|Hf]]]; try discriminate Hf.
    by apply elem_of_nil in Hf.
  - intros Hdev. exists "lighthouse-plugin-publisher-ads".
    apply elem_of_registered. rewrite registered_configured.
    unfold all_rows, plugin_rows. rewrite Hdev.
    rewrite !elem_of_app. right. right. left. apply elem_of_cons. by left.
  - rewrite !filter_app, filter_ignore_ignores, filter_ignore_rows, app_nil_r.
    rewrite !length_app, length_fmap. unfold target_ignores.
    by destruct (isDevtools entryPath), (isLightrider entryPath).
Qed.

Lemma target_calls_only_for_their_target_witness :
  ∃ b, configure demo_env "/lh/clients/lightrider/lightrider-entry.js"
         = Returned b ∧
       ((∃ l, IgnoreAll l ∈ calls b)
        ↔ isDevtools "/lh/clients/lightrider/lightrider-entry.js" = true) ∧
       ((∃ p, Require p None ∈ calls b)
        ↔ isDevtools "/lh/clients/lightrider/lightrider-entry.js" = true) ∧
       length (filter (λ c, is_ignore c) (calls b))
       = 8 + (if isDevtools "/lh/clients/lightrider/lightrider-entry.js"
                 || isLightrider "/lh/clients/lightrider/lightrider-entry.js"
              then 1 else 0)
           + (if isDevtools "/lh/clients/lightrider/lightrider-entry.js"
              then 1 else 0).
Proof.
  apply (target_calls_only_for_their_target demo_env demo_pkg
           "/lh/clients/lightrider/lightrider-entry.js"). reflexivity.
Defined.

(** ** The banner metadata (line 58) *)

(** [Object.assign({COMMIT_HASH}, require('../package.json'))]: the banner
    plugin is the first call of the session and receives every field of
    package.json unchanged; the commit hash is added under "COMMIT_HASH"
    unless package.json has a field of that name, which then wins. *)
Theorem banner_metadata (env : Env) (pkg : gmap string string)
    (entryPath : string) :
  package_json env = Some pkg →
  ∃ b meta file,
    configure env entryPath = Returned b ∧
    calls b !! 0 = Some (Plugin "browserify-banner" meta file) ∧
    (∀ k v, pkg !! k = Some v → meta !! k = Some v) ∧
    (∀ k, k ≠ "COMMIT_HASH" → meta !! k = pkg !! k) ∧
    (pkg !! "COMMIT_HASH" = None →
     meta !! "COMMIT_HASH" = Some (COMMIT_HASH env)).
Proof.
  intros Hpkg. eexists _, _, _. split; [by apply configure_calls|].
  split; [reflexivity|]. repeat split.
  - intros k v Hk. by apply lookup_union_Some_l.
  - intros k Hk. destruct (pkg !! k) as [v|] eqn:Hv.
    + by apply lookup_union_Some_l.
    + rewrite lookup_union_r by done. by apply lookup_singleton_ne.
  - intros Hnone. rewrite lookup_union_r by done. apply lookup_singleton_eq.
Qed.

Lemma banner_metadata_witness :
  ∃ b meta file,
    configure demo_env "/lh/lighthouse-cli/index.js" = Returned b ∧
    calls b !! 0 = Some (Plugin "browserify-banner" meta file) ∧
    (∀ k v, demo_pkg !! k = Some v → meta !! k = Some v) ∧
    (∀ k, k ≠ "COMMIT_HASH" → meta !! k = demo_pkg !! k) ∧
    (demo_pkg !! "COMMIT_HASH" = None →
     meta !! "COMMIT_HASH" = Some (COMMIT_HASH demo_env)).
Proof.
  apply (banner_metadata demo_env demo_pkg "/lh/lighthouse-cli/index.js").
  reflexivity.
Defined.

(** ** Exposed names (lines 92-99, 114) *)




(** ** The promise settles once (lines 120-129) *)

(** The first event of the write stream decides the promise: 'finish'
    fulfils it, 'error' rejects it with the error of that event.  What the
    bundle stream and exorcist emitted before, and whatever any stream emits
    afterwards (a later 'error' after 'finish', a 'finish' after an 'error'),
    changes nothing. *)
Theorem first_write_event_decides (before after : list Emitted)
    (ev : StreamEvent) :
  Forall (λ em, source em ≠ WriteStream) before →
  (run_streams (before ++ Emit WriteStream ev :: after)).1
  = match ev with
    | Finish => Fulfilled
    | Failed e => Rejected e
    end.
Proof.
  intros Hbefore. unfold run_streams. rewrite foldl_app.
  fold (run_streams before).
  rewrite (upstream_errors_leave_pending before Hbefore).
  cbn [foldl]. rewrite settled_stays; rewrite emit_write_stream; by destruct ev.
Qed.

Lemma first_write_event_decides_witness :
  (run_streams ([Emit BundleStream Finish; Emit ExorcistStream Finish]
                ++ Emit WriteStream (Failed (StreamError "ENOSPC"))
                   :: [Emit WriteStream Finish])).1
  = Rejected (StreamError "ENOSPC").
Proof.
  apply (first_write_event_decides
           [Emit BundleStream Finish; Emit ExorcistStream Finish]
           [Emit WriteStream Finish] (Failed (StreamError "ENOSPC"))).
  repeat constructor; discriminate.
Defined.

(** ** The destination directory (line 119) *)

(** When [mkdir] rejects, [browserifyFile] and [build] reject with its
    error.  The bundler has been started and [mkdir] attempted, and that is
    all: no write stream is opened, no map extraction is set up, the
    minifier stage does not run and the files are untouched. *)
Theorem mkdir_failure_aborts (env : Env) (pkg : gmap string string)
    (entryPath distPath : string) (w : World) (e : Error) :
  package_json env = Some pkg →
  mkdir env (Path.dirname distPath) = Some e →
  ∃ b, configure env entryPath = Returned b ∧
       (browserifyFile env entryPath distPath w).1 = Thrown e ∧
       (build env entryPath distPath w).1 = Thrown e ∧
       effects_of (build env entryPath distPath) w
       = [EBundle b; EMkdir (Path.dirname distPath)] ∧
       files (build env entryPath distPath w).2 = files w.
Proof.
  intros Hpkg Hmkdir. eexists. split; [by apply configure_calls|].
  unfold effects_of, build, browserifyFile, lift, perform, await_mkdir,
    mbind, M_bind.
  rewrite (configure_calls env pkg entryPath Hpkg), Hmkdir.
  cbn [fst snd log trace files].
  repeat split. by rewrite <- !app_assoc, drop_app_length.
Qed.

Lemma mkdir_failure_aborts_witness :
  let env := with_mkdir (λ dir, Some (MkdirError dir)) demo_env in
  ∃ b, configure env "/lh/lighthouse-cli/index.js" = Returned b ∧
       (browserifyFile env "/lh/lighthouse-cli/index.js" "/out/b.js"
          (world_of ∅)).1 = Thrown (MkdirError "/out") ∧
       (build env "/lh/lighthouse-cli/index.js" "/out/b.js" (world_of ∅)).1
       = Thrown (MkdirError "/out") ∧
       effects_of (build env "/lh/lighthouse-cli/index.js" "/out/b.js")
         (world_of ∅)
       = [EBundle b; EMkdir (Path.dirname "/out/b.js")] ∧
       files (build env "/lh/lighthouse-cli/index.js" "/out/b.js"
                (world_of ∅)).2 = files (world_of ∅).
Proof.
  apply (mkdir_failure_aborts
           (with_mkdir (λ dir, Some (MkdirError dir)) demo_env) demo_pkg
           "/lh/lighthouse-cli/index.js" "/out/b.js" (world_of ∅)
           (MkdirError "/out")); reflexivity.
Defined.

(** ** Assembler, then minifier (lines 170-173) *)

(** The trace of a run of [minifyScript] extends the trace it started
    with. *)
Lemma minifyScript_trace (env : Env) (filePath : string) (w : World) :
  trace (minifyScript env filePath w).2
  = trace w ++ effects_of (minifyScript env filePath) w.
Proof.
  unfold effects_of, minifyScript, readFileSync, parse_json, minify,
    writeFileSync, throw, mbind, M_bind, mret, M_ret.
  cbn [files log trace].
  destruct (files w !! filePath); cbn [files log trace fst snd];
    [|by rewrite drop_app_length].
  destruct (files w !! (filePath +:+ ".map")); cbn [files log trace fst snd];
    [|by rewrite <- !app_assoc, drop_app_length].
  destruct (JSON_parse env _); cbn [files log trace fst snd];
    [|by rewrite <- !app_assoc, drop_app_length].
  destruct (error _); cbn [files log set_files trace fst snd];
    by rewrite <- !app_assoc, drop_app_length.
Qed.

(** Once the write stream has finished first, [build] is the minifier
    stage run on what the streams left on disk. *)
Lemma build_fulfilled (env : Env) (pkg : gmap string string)
    (entryPath distPath : string) (w : World) :
  package_json env = Some pkg →
  mkdir env (Path.dirname distPath) = None →
  ∃ b w1,
    configure env entryPath = Returned b ∧
    files w1 = stream_disk env b distPath (files w) ∧
    trace w1 = trace w ++ [EBundle b; EMkdir (Path.dirname distPath);
                           ECreateWriteStream distPath;
                           EExorcist (distPath +:+ ".map")] ∧
    ((run_streams (stream_events env b)).1 = Fulfilled →
     build env entryPath distPath w = minifyScript env distPath w1) ∧
    ((run_streams (stream_events env b)).1 ≠ Fulfilled →
     (build env entryPath distPath w).1
       = match (run_streams (stream_events env b)).1 with
         | Rejected e => Thrown e
         | _ => Suspended
         end ∧
     (build env entryPath distPath w).2 = w1).
Proof.
  intros Hpkg Hmkdir.
  set (b := {| entry := entryPath; debug := true;
               calls := setup_calls env pkg ++ (Ignore <$> always_excluded env)
                        ++ target_ignores env entryPath
                        ++ (row_call <$> all_rows env entryPath) |}).
  exists b,
    (add_uncaught (run_streams (stream_events env b)).2
       (set_files (stream_disk env b distPath (files w))
          (log (EExorcist (distPath +:+ ".map"))
             (log (ECreateWriteStream distPath)
                (log (EMkdir (Path.dirname distPath)) (log (EBundle b) w)))))).
  split; [by apply configure_calls|].
  split; [reflexivity|].
  split; [cbn [log set_files add_uncaught trace]; by rewrite <- !app_assoc|].
  unfold build, browserifyFile, lift, perform, await_mkdir, pipe_to_disk,
    mbind, M_bind.
  rewrite (configure_calls env pkg entryPath Hpkg), Hmkdir.
  fold b. cbn [fst snd].
  destruct (run_streams (stream_events env b)).1; split; done.
Qed.

(** In a run of [build], a file read, a minifier call or a [writeFileSync]
    happens only if package.json was read, the destination directory was
    made and the write stream emitted 'finish': a failed or stalled
    assembler keeps the minifier stage from running at all. *)
Theorem minifier_runs_only_after_finish (env : Env)
    (entryPath distPath : string) (w : World) (eff : Effect) :
  eff ∈ effects_of (build env entryPath distPath) w →
  minifier_effect eff = true →
  ∃ b, configure env entryPath = Returned b ∧
       mkdir env (Path.dirname distPath) = None ∧
       Emit WriteStream Finish ∈ stream_events env b.
Proof.
  intros Heff Hkind.
  destruct (package_json env) as [pkg|] eqn:Hpkg.
  2:{ destruct (build_fails_before_any_write env entryPath distPath w Hpkg)
        as (_ & Hnone & _).
      rewrite Hnone in Heff. by apply elem_of_nil in Heff. }
  destruct (mkdir env (Path.dirname distPath)) as [e|] eqn:Hmkdir.
  { destruct (mkdir_failure_aborts env pkg entryPath distPath w e Hpkg Hmkdir)
      as (b & _ & _ & _ & Htwo & _).
    rewrite Htwo in Heff. effect_cases Heff; by subst eff. }
  destruct (build_fulfilled env pkg entryPath distPath w Hpkg Hmkdir)
    as (b & w1 & Hb & _ & Htrace & _ & Hother).
  exists b. split; [done|]. split; [done|].
  destruct (run_streams (stream_events env b)).1 eqn:Hstate;
    [|by apply fulfilled_only_after_finish|].
  - destruct (Hother ltac:(discriminate)) as [_ Hworld].
    unfold effects_of in Heff. rewrite Hworld, Htrace, drop_app_length in Heff.
    effect_cases Heff; by subst eff.
  - destruct (Hother ltac:(discriminate)) as [_ Hworld].
  unfold effects_of in Heff. rewrite Hworld, Htrace, drop_app_length in Heff.
  effect_cases Heff; by subst eff.
Qed.

Lemma minifier_runs_only_after_finish_witness :
  ∃ b, configure demo_env "/lh/lighthouse-cli/index.js" = Returned b ∧
       mkdir demo_env (Path.dirname "/out/b.js") = None ∧
       Emit WriteStream Finish ∈ stream_events demo_env b.
Proof.
  apply (minifier_runs_only_after_finish demo_env
           "/lh/lighthouse-cli/index.js" "/out/b.js" (world_of ∅)
           (EReadFile "/out/b.js")); [|reflexivity].
  vm_compute. apply list_elem_of_In. do 4 right. left. reflexivity.
Defined.

(** A whole run of [build] in which the write stream finishes first and
    the streams have left a bundle and a map with valid JSON on disk: the
    minifier receives that bundle; if it reports an error [build] rejects
    with it and the disk keeps the unminified bundle and map; otherwise
    [build] fulfils and the two files hold the minified code and the new
    map.  The effects are those of the assembler followed by those of the
    minifier stage. *)
Theorem build_after_finish (env : Env) (pkg : gmap string string)
    (entryPath distPath : string) (w : World) (b : Bundler)
    (input mapText content : string) :
  package_json env = Some pkg →
  mkdir env (Path.dirname distPath) = None →
  configure env entryPath = Returned b →
  (run_streams (stream_events env b)).1 = Fulfilled →
  let disk := stream_disk env b distPath (files w) in
  disk !! distPath = Some input →
  disk !! (distPath +:+ ".map") = Some mapText →
  JSON_parse env mapText = Some content →
  let result := terser_minify env input (minify_options distPath content) in
  let out := build env entryPath distPath w in
  match error result with
  | Some e => out.1 = Thrown e ∧ files out.2 = disk
  | None =>
      out.1 = Returned tt ∧
      files out.2 = <[distPath +:+ ".map" := map result]>
                      (<[distPath := code result]> disk)
  end ∧
  effects_of (build env entryPath distPath) w
  = [EBundle b; EMkdir (Path.dirname distPath); ECreateWriteStream distPath;
     EExorcist (distPath +:+ ".map");
     EReadFile distPath; EReadFile (distPath +:+ ".map");
     EMinify input (minify_options distPath content)]
    ++ match error result with
       | Some _ => []
       | None => [EWriteFile distPath (code result);
                  EWriteFile (distPath +:+ ".map") (map result)]
       end.
Proof.
  intros Hpkg Hmkdir Hb Hdone. cbn zeta. intros Hbundle Hmapfile Hparse.
  destruct (build_fulfilled env pkg entryPath distPath w Hpkg Hmkdir)
    as (b' & w1 & Hb' & Hdisk & Htrace & Hrun & _).
  assert (b' = b) as -> by congruence.
  rewrite <- Hdisk in Hbundle, Hmapfile |- *.
  pose proof (minifyScript_trace env distPath w1) as Hext.
  rewrite <- (Hrun Hdone) in Hext.
  minify_run env distPath w1; try congruence.
  - assert (input0 = input) as -> by congruence.
    assert (mapText0 = mapText) as -> by congruence.
    assert (content0 = content) as -> by congruence.
    rewrite Herr, (Hrun Hdone). split; [done|].
    apply effects_of_trace. rewrite Hext, Htrace, Heff.
    by rewrite <- app_assoc.
  - assert (input0 = input) as -> by congruence.
    assert (mapText0 = mapText) as -> by congruence.
    assert (content0 = content) as -> by congruence.
    rewrite Herr, (Hrun Hdone). split; [done|].
    apply effects_of_trace. rewrite Hext, Htrace, Heff.
    by rewrite <- app_assoc.
Qed.

Lemma build_after_finish_witness :
  let env := checkout (Some demo_pkg) [Emit WriteStream Finish]
               minifier_failing in
  let out := build env "/lh/lighthouse-cli/index.js" "/out/b.js" (world_of ∅) in
  ∃ b, configure env "/lh/lighthouse-cli/index.js" = Returned b ∧
       (out.1 = Thrown (MinifyError "Unexpected token") ∧
        files out.2 = stream_disk env b "/out/b.js" ∅) ∧
       effects_of (build env "/lh/lighthouse-cli/index.js" "/out/b.js")
         (world_of ∅)
       = [EBundle b; EMkdir (Path.dirname "/out/b.js");
          ECreateWriteStream "/out/b.js"; EExorcist "/out/b.js.map";
          EReadFile "/out/b.js"; EReadFile "/out/b.js.map";
          EMinify "bundle" (minify_options "/out/b.js" "{}")] ++ [].
Proof.
  cbn zeta. eexists. split; [reflexivity|].
  apply (build_after_finish
           (checkout (Some demo_pkg) [Emit WriteStream Finish] minifier_failing)
           demo_pkg "/lh/lighthouse-cli/index.js" "/out/b.js" (world_of ∅) _
           "bundle" "{}" "{}"); vm_compute; reflexivity.
Defined.

(** ** More on the minifier stage (lines 136-162) *)

Lemma string_app_length (s t : string) :
  String.length (s +:+ t) = String.length s + String.length t.
Proof.
  induction s as [|c s IH]; [done|].
  change (S (String.length (s +:+ t)) = S (String.length s + String.length t)).
  by rewrite IH.
Qed.

Lemma map_path_differs (filePath : string) : filePath ≠ filePath +:+ ".map".
Proof.
  intros Heq. apply (f_equal String.length) in Heq.
  rewrite string_app_length in Heq. cbn in Heq. lia.
Qed.

(** [minifyScript] touches two paths only: every other file is the same
    after a run as before, however the run ends. *)
Theorem minifyScript_frame (env : Env) (filePath : string) (w : World)
    (p : string) :
  p ≠ filePath →
  p ≠ filePath +:+ ".map" →
  files (minifyScript env filePath w).2 !! p = files w !! p.
Proof.
  intros Hp Hpmap.
  minify_run env filePath w; rewrite Hfiles; [done..|].
  by rewrite !lookup_insert_ne.
Qed.

Lemma minifyScript_frame_witness :
  files (minifyScript demo_env "/out/b.js"
           (world_of {[ "/out/b.js" := "bundle"; "/out/b.js.map" := "{}";
                        "/out/other.js" := "kept" ]})).2 !! "/out/other.js"
  = files (world_of {[ "/out/b.js" := "bundle"; "/out/b.js.map" := "{}";
                       "/out/other.js" := "kept" ]}) !! "/out/other.js".
Proof.
  apply (minifyScript_frame demo_env "/out/b.js"
           (world_of {[ "/out/b.js" := "bundle"; "/out/b.js.map" := "{}";
                        "/out/other.js" := "kept" ]}) "/out/other.js");
    discriminate.
Defined.

(** A map file that is not valid JSON (line 153): [JSON.parse] throws after
    both files have been read; the minifier is not called, nothing is
    written and the files are unchanged. *)
Theorem minifyScript_invalid_map (env : Env) (filePath : string) (w : World)
    (input mapText : string) :
  files w !! filePath = Some input →
  files w !! (filePath +:+ ".map") = Some mapText →
  JSON_parse env mapText = None →
  (minifyScript env filePath w).1 = Thrown (JsonSyntaxError mapText) ∧
  files (minifyScript env filePath w).2 = files w ∧
  effects_of (minifyScript env filePath) w
  = [EReadFile filePath; EReadFile (filePath +:+ ".map")].
Proof.
  intros Hbundle Hmapfile Hparse.
  minify_run env filePath w; try congruence.
  assert (mapText0 = mapText) as -> by congruence. done.
Qed.

Lemma minifyScript_invalid_map_witness :
  let env := with_JSON_parse (λ _, None) demo_env in
  let w := world_of {[ "/out/b.js" := "bundle"; "/out/b.js.map" := "{" ]} in
  (minifyScript env "/out/b.js" w).1 = Thrown (JsonSyntaxError "{") ∧
  files (minifyScript env "/out/b.js" w).2 = files w ∧
  effects_of (minifyScript env "/out/b.js") w
  = [EReadFile "/out/b.js"; EReadFile ("/out/b.js" +:+ ".map")].
Proof.
  apply (minifyScript_invalid_map (with_JSON_parse (λ _, None) demo_env)
           "/out/b.js"
           (world_of {[ "/out/b.js" := "bundle"; "/out/b.js.map" := "{" ]})
           "bundle" "{"); vm_compute; reflexivity.
Defined.

(** Every [writeFileSync] of [minifyScript] goes to [filePath] or to its
    map, happens only in a run that returns normally, and writes what the
    file holds when the run is over (the second write does not undo the
    first). *)
Theorem minifyScript_writes (env : Env) (filePath : string) (w : World)
    (q d : string) :
  EWriteFile q d ∈ effects_of (minifyScript env filePath) w →
  (q = filePath ∨ q = filePath +:+ ".map") ∧
  (minifyScript env filePath w).1 = Returned tt ∧
  files (minifyScript env filePath w).2 !! q = Some d.
Proof.
  intros Hwrite.
  minify_run env filePath w; rewrite Heff in Hwrite; effect_cases Hwrite.
  - injection Hwrite as <- <-. rewrite Hfiles. repeat split; [by left|done|].
    rewrite lookup_insert_ne by (intros Heq; by apply (map_path_differs filePath)).
    apply lookup_insert_eq.
  - injection Hwrite as <- <-. rewrite Hfiles. repeat split; [by right|done|].
    apply lookup_insert_eq.
Qed.

Lemma minifyScript_writes_witness :
  let w := world_of {[ "/out/b.js" := "bundle"; "/out/b.js.map" := "{}" ]} in
  ("/out/b.js" = "/out/b.js" ∨ "/out/b.js" = "/out/b.js" +:+ ".map") ∧
  (minifyScript demo_env "/out/b.js" w).1 = Returned tt ∧
  files (minifyScript demo_env "/out/b.js" w).2 !! "/out/b.js"
  = Some "min:bundle".
Proof.
  apply (minifyScript_writes demo_env "/out/b.js"
           (world_of {[ "/out/b.js" := "bundle"; "/out/b.js.map" := "{}" ]})
           "/out/b.js" "min:bundle").
  vm_compute. apply list_elem_of_In. do 3 right. left. reflexivity.
Defined.

(** ** More on the command line (lines 178-183) *)

(** A run of [cli] depends on the argument vector through its third and
    fourth element only: the interpreter and script names in front and any
    argument after the second positional one (resolved, then dropped) change
    nothing. *)
Theorem cli_reads_two_arguments (env : Env) (argv argv' : list string)
    (w : World) :
  argv !! 2 = argv' !! 2 →
  argv !! 3 = argv' !! 3 →
  cli env argv w = cli env argv' w.
Proof.
  intros Hentry Hdist. unfold cli.
  rewrite !list_lookup_fmap, !lookup_drop. cbn [Nat.add].
  by rewrite Hentry, Hdist.
Qed.

Lemma cli_reads_two_arguments_witness :
  cli demo_env ["node"; "build-bundle.js"; "a.js"; "dist/b.js"; "--verbose"]
    (world_of ∅)
  = cli demo_env ["/usr/bin/node"; "/lh/build/build-bundle.js"; "a.js";
                  "dist/b.js"] (world_of ∅).
Proof.
  apply (cli_reads_two_arguments demo_env
           ["node"; "build-bundle.js"; "a.js"; "dist/b.js"; "--verbose"]
           ["/usr/bin/node"; "/lh/build/build-bundle.js"; "a.js"; "dist/b.js"]
           (world_of ∅)); reflexivity.
Defined.

(** With fewer than two positional arguments [build] is still called, with
    [undefined] for what is missing.  It rejects (package.json unreadable,
    or a [path] function applied to [undefined]); at most the bundler has
    been started: no directory is made, no stream is opened and no file is
    read or written; the rejection stays unhandled and [cli] returns. *)
Theorem cli_missing_argument (env : Env) (argv : list string) (w : World) :
  length argv < 4 →
  (cli env argv w).1 = Returned tt ∧
  files (cli env argv w).2 = files w ∧
  (∃ e, unhandled (cli env argv w).2 = unhandled w ++ [e] ∧
        (e = ModuleNotFound "../package.json" ∨ ∃ what, e = TypeError what)) ∧
  (∀ eff, eff ∈ effects_of (cli env argv) w → ∃ b, eff = EBundle b).
Proof.
  intros Hshort.
  assert (argv !! 3 = None) as Hdist by (apply lookup_ge_None; lia).
  unfold effects_of, cli. rewrite !list_lookup_fmap, !lookup_drop.
  cbn [Nat.add]. rewrite Hdist. cbn [fmap option_fmap option_map].
  destruct (package_json env) as [pkg|] eqn:Hpkg.
  - destruct (argv !! 2) as [e|]; cbn [fmap option_fmap option_map build_dyn].
    + unfold lift, perform, throw, mbind, M_bind.
      rewrite (configure_calls env pkg _ Hpkg).
      cbn [fst snd log add_unhandled files unhandled trace].
      repeat split; [eauto|].
      rewrite drop_app_length. intros eff Heff.
      apply list_elem_of_singleton in Heff. eauto.
    + unfold lift, throw, mbind, M_bind, require_package_json. rewrite Hpkg.
      cbn [fst snd add_unhandled files unhandled trace].
      repeat split; [eauto|].
      rewrite drop_all. intros eff Heff. by apply elem_of_nil in Heff.
  - destruct (argv !! 2) as [e|]; cbn [fmap option_fmap option_map build_dyn].
    + unfold lift, perform, throw, mbind, M_bind, configure,
        require_package_json.
      rewrite Hpkg. cbn [mbind Completion_bind fst snd add_unhandled files
                           unhandled trace].
      repeat split; [eauto|].
      rewrite drop_all. intros eff Heff. by apply elem_of_nil in Heff.
    + unfold lift, throw, mbind, M_bind, require_package_json. rewrite Hpkg.
      cbn [fst snd add_unhandled files unhandled trace].
      repeat split; [eauto|].
      rewrite drop_all. intros eff Heff. by apply elem_of_nil in Heff.
Qed.

Lemma cli_missing_argument_witness :
  let out := cli demo_env ["node"; "build-bundle.js"; "a.js"] (world_of ∅) in
  out.1 = Returned tt ∧
  files out.2 = files (world_of ∅) ∧
  (∃ e, unhandled out.2 = unhandled (world_of ∅) ++ [e] ∧
        (e = ModuleNotFound "../package.json" ∨ ∃ what, e = TypeError what)) ∧
  (∀ eff, eff ∈ effects_of (cli demo_env ["node"; "build-bundle.js"; "a.js"])
                  (world_of ∅) → ∃ b, eff = EBundle b).
Proof.
  apply (cli_missing_argument demo_env ["node"; "build-bundle.js"; "a.js"]
           (world_of ∅)). cbn. lia.
Defined.

(** ** Which entry is a devtools entry (lines 40-43) *)

Lemma string_app_nil_r (s : string) : s +:+ "" = s.
Proof.
  induction s as [|c s IH]; [done|].
  change (String c (s +:+ "") = String c s). by rewrite IH.
Qed.

Lemma rev_app_app (s t acc : string) :
  String.rev_app (s +:+ t) acc = String.rev_app t (String.rev_app s acc).
Proof.
  revert acc. induction s as [|c s IH]; intros acc; [done|].
  change (String.rev_app (s +:+ t) (String c acc)
          = String.rev_app t (String.rev_app s (String c acc))).
  apply IH.
Qed.

Lemma rev_app_rev_app (s acc acc' : string) :
  String.rev_app (String.rev_app s acc) acc' = String.rev_app acc (s +:+ acc').
Proof.
  revert acc acc'. induction s as [|c s IH]; intros acc acc'; [done|].
  cbn [String.rev_app]. by rewrite IH.
Qed.

Lemma rev_involutive (s : string) : String.rev (String.rev s) = s.
Proof.
  unfold String.rev. rewrite rev_app_rev_app. cbn. apply string_app_nil_r.
Qed.

Lemma includes_slash_cons (c : ascii) (s : string) :
  Js.includes (String c s) "/" = false →
  Path.is_sep c = false ∧ Js.includes s "/" = false.
Proof.
  change (Js.includes (String c s) "/")
    with ((if Ascii.eqb "/" c then true else false) || Js.includes s "/").
  unfold Path.is_sep. rewrite (Ascii.eqb_sym c).
  by destruct (Ascii.eqb "/" c).
Qed.

Lemma take_segment_stops (acc rest : string) :
  Js.includes acc "/" = false →
  Path.take_segment (acc +:+ String "/" rest) = acc.
Proof.
  induction acc as [|c acc IH]; intros Hfree; [done|].
  apply includes_slash_cons in Hfree as [Hc Hfree].
  change (Path.take_segment (String c (acc +:+ String "/" rest)) = String c acc).
  cbn [Path.take_segment]. rewrite Hc. by rewrite IH.
Qed.

Lemma take_segment_rev (file acc rest : string) :
  Js.includes file "/" = false →
  Js.includes acc "/" = false →
  Path.take_segment (String.rev_app file (acc +:+ String "/" rest))
  = String.rev_app file acc.
Proof.
  revert acc. induction file as [|c file IH]; intros acc Hfile Hacc.
  - by apply take_segment_stops.
  - apply includes_slash_cons in Hfile as [Hc Hfile].
    cbn [String.rev_app].
    change (String c (acc +:+ String "/" rest))
      with (String c acc +:+ String "/" rest).
    apply IH; [done|].
    change (Js.includes (String c acc) "/")
      with ((if Ascii.eqb "/" c then true else false) || Js.includes acc "/").
    unfold Path.is_sep in Hc. rewrite (Ascii.eqb_sym c) in Hc.
    by rewrite Hc.
Qed.

Lemma drop_seps_rev (file rest : string) :
  Js.includes file "/" = false →
  file ≠ "" ∨ (∃ c t, rest = String c t ∧ Path.is_sep c = false) →
  Path.drop_seps (String.rev_app file rest) = String.rev_app file rest.
Proof.
  revert rest. induction file as [|c file IH]; intros rest Hfile Hstart.
  - destruct Hstart as [|(c & t & -> & Hc)]; [done|].
    cbn. by rewrite Hc.
  - apply includes_slash_cons in Hfile as [Hc Hfile].
    cbn [String.rev_app]. apply IH; [done|]. right. eauto.
Qed.

(** The kind of an entry is read off its file name alone: for a path
    [dir/file] with a non-empty [file] free of separators, [path.basename]
    is [file], so the entry is a devtools (lightrider) entry exactly if
    [file] contains "devtools" ("lightrider"); a directory of that name does
    not make it one. *)
Theorem entry_kind_depends_on_basename (dir file : string) :
  file ≠ "" →
  Js.includes file "/" = false →
  Path.basename (dir +:+ "/" +:+ file) = file ∧
  isDevtools (dir +:+ "/" +:+ file) = Js.includes file "devtools" ∧
  isLightrider (dir +:+ "/" +:+ file) = Js.includes file "lightrider".
Proof.
  intros Hne Hfree.
  assert (Path.basename (dir +:+ "/" +:+ file) = file) as Hbase.
  { unfold Path.basename, String.rev. rewrite rev_app_app.
    change ("/" +:+ file) with (String "/" file).
    cbn [String.rev_app].
    rewrite drop_seps_rev by auto.
    change (String "/" (String.rev_app dir ""))
      with ("" +:+ String "/" (String.rev_app dir "")).
    rewrite (take_segment_rev file "" (String.rev_app dir "")) by done.
    fold (String.rev file). fold (String.rev (String.rev file)).
    apply rev_involutive. }
  unfold isDevtools, isLightrider. by rewrite Hbase.
Qed.

Lemma entry_kind_depends_on_basename_witness :
  Path.basename ("/lh/devtools" +:+ "/" +:+ "cli-entry.js") = "cli-entry.js" ∧
  isDevtools ("/lh/devtools" +:+ "/" +:+ "cli-entry.js")
  = Js.includes "cli-entry.js" "devtools" ∧
  isLightrider ("/lh/devtools" +:+ "/" +:+ "cli-entry.js")
  = Js.includes "cli-entry.js" "lightrider".
Proof.
  apply (entry_kind_depends_on_basename "/lh/devtools" "cli-entry.js");
    [discriminate|reflexivity].
Defined.

(** Two entries of the same kind (both or neither a devtools entry, both or
    neither a lightrider entry) get the same calls, in the same order: the
    entry path reaches the session only as its root and through the two
    tests. *)
Theorem same_kind_same_calls (env : Env) (entry1 entry2 : string)
    (b1 b2 : Bundler) :
  isDevtools entry1 = isDevtools entry2 →
  isLightrider entry1 = isLightrider entry2 →
  configure env entry1 = Returned b1 →
  configure env entry2 = Returned b2 →
  calls b1 = calls b2 ∧ entry b1 = entry1 ∧ entry b2 = entry2.
Proof.
  intros Hdev Hlr Hb1 Hb2.
  destruct (package_json env) as [pkg|] eqn:Hpkg.
  - rewrite (configure_calls env pkg entry1 Hpkg) in Hb1.
    rewrite (configure_calls env pkg entry2 Hpkg) in Hb2.
    injection Hb1 as <-. injection Hb2 as <-. cbn [calls entry].
    unfold target_ignores, all_rows, plugin_rows. by rewrite Hdev, Hlr.
  - unfold configure, require_package_json in Hb1. by rewrite Hpkg in Hb1.
Qed.

Lemma same_kind_same_calls_witness :
  ∃ b1 b2,
    configure demo_env "/lh/lighthouse-cli/index.js" = Returned b1 ∧
    configure demo_env "/lh/clients/extension/scripts/extension-entry.js"
      = Returned b2 ∧
    calls b1 = calls b2 ∧
    entry b1 = "/lh/lighthouse-cli/index.js" ∧
    entry b2 = "/lh/clients/extension/scripts/extension-entry.js".
Proof.
  eexists _, _. split; [reflexivity|]. split; [reflexivity|].
  apply (same_kind_same_calls demo_env "/lh/lighthouse-cli/index.js"
           "/lh/clients/extension/scripts/extension-entry.js");
    reflexivity.
Defined.

(** * Properties of the sized-images audit *)

Section SizedImagesFacts.
Import SizedImages.

(** ** [isValid] (lines 48-54) *)

Lemma digit_value_zero (c : ascii) (d : N) :
  digit_value c = Some d → (d = 0%N ↔ is_zero c = true).
Proof.
  unfold digit_value.
  destruct c as [[] [] [] [] [] [] [] []]; vm_compute; intros Hd;
    simplify_eq; by split.
Qed.

Lemma digit_value_is_digit (c : ascii) :
  is_digit c = true ↔ is_Some (digit_value c).
Proof.
  unfold digit_value. destruct (is_digit c); split;
    [eauto|done|done|by intros [? ?]].
Qed.

Lemma decimal_go_digits (acc : N) (s : string) :
  all_chars is_digit s = true ↔ is_Some (decimal_go acc s).
Proof.
  revert acc. induction s as [|c s IH]; intros acc; cbn [all_chars decimal_go].
  - split; eauto.
  - rewrite andb_true_iff, digit_value_is_digit.
    destruct (digit_value c) as [d|]; [|split; [by intros [[? ?] _]|by intros [? ?]]].
    rewrite (IH (10 * acc + d)%N). split; [by intros [_ ?]|eauto].
Qed.

Lemma decimal_go_zero (acc n : N) (s : string) :
  decimal_go acc s = Some n →
  (n = 0%N ↔ acc = 0%N ∧ all_chars is_zero s = true).
Proof.
  revert acc. induction s as [|c s IH]; intros acc; cbn [all_chars decimal_go].
  - intros [= ->]. split; [done|by intros [? _]].
  - destruct (digit_value c) as [d|] eqn:Hd; [|done]. intros Hgo.
    rewrite (IH _ Hgo), andb_true_iff.
    pose proof (digit_value_zero c d Hd) as Hzero.
    assert ((10 * acc + d)%N = 0%N ↔ acc = 0%N ∧ d = 0%N) as -> by lia.
    tauto.
Qed.

(** [isValid] accepts exactly the decimal numerals of a positive number:
    one or more digits (leading zeros allowed) whose value is not zero. *)
Theorem isValid_positive_numeral (attr : string) :
  isValid attr = true ↔ ∃ n, decimal attr = Some n ∧ (0 < n)%N.
Proof.
  unfold isValid, decimal, test_plus. destruct attr as [|c s].
  { split; [done|]. by intros (n & ? & _). }
  rewrite andb_true_iff, negb_true_iff, (decimal_go_digits 0). split.
  - intros [[n Hn] Hzero]. exists n. split; [done|].
    destruct (decide (n = 0%N)) as [->|]; [|lia].
    apply (decimal_go_zero 0 0) in Hn. destruct Hn as [Hn _].
    destruct (Hn eq_refl) as [_ Hall]. congruence.
  - intros (n & Hn & Hpos). split; [eauto|].
    destruct (all_chars is_zero (String c s)) eqn:Hall; [|done].
    apply (decimal_go_zero 0 n) in Hn. destruct Hn as [_ Hn].
    assert (n = 0%N) by (by apply Hn). lia.
Qed.

(** A single character that is not a digit makes the attribute invalid,
    wherever it stands: a sign, a unit, a percent sign, a decimal point or
    white space. *)
Theorem isValid_rejects_non_digit (before after : string) (c : ascii) :
  is_digit c = false →
  isValid (before +:+ String c after) = false.
Proof.
  intros Hc.
  assert (all_chars is_digit (before +:+ String c after) = false) as Hall.
  { induction before as [|b before IH].
    - change (is_digit c && all_chars is_digit after = false). by rewrite Hc.
    - change (is_digit b && all_chars is_digit (before +:+ String c after)
              = false).
      rewrite IH. apply andb_false_r. }
  unfold isValid, test_plus.
  destruct (before +:+ String c after); [done|]. by rewrite Hall.
Qed.

Lemma isValid_rejects_non_digit_witness :
  isValid ("100" +:+ String "p" "x") = false.
Proof. apply (isValid_rejects_non_digit "100" "x" "p"). reflexivity. Defined.

(** Leading zeros do not matter: "0" in front of an attribute changes
    nothing, so "007" is valid and "000" is not. *)
Theorem isValid_leading_zero (attr : string) :
  isValid (String "0" attr) = isValid attr.
Proof.
  unfold isValid, test_plus. cbn [all_chars is_digit is_zero andb].
  by destruct attr.
Qed.

(** ** [audit] (lines 61-96) *)

Lemma push_loop (lib : Lib) (images : list ImageElement) (pushed : list Item) :
  foldl (λ pushed image,
           if unsized image then pushed ++ [item_of lib image] else pushed)
        pushed images
  = pushed ++ (item_of lib <$> List.filter unsized images).
Proof.
  revert pushed. induction images as [|image images IH]; intros pushed.
  - cbn. by rewrite app_nil_r.
  - cbn [foldl List.filter]. rewrite IH.
    destruct (unsized image); [|done]. by rewrite <- app_assoc.
Qed.

Lemma filter_filter (f g : ImageElement → bool) (l : list ImageElement) :
  List.filter f (List.filter g l) = List.filter (λ el, g el && f el) l.
Proof.
  induction l as [|el l IH]; [done|]. cbn [List.filter].
  destruct (g el); cbn [List.filter andb]; [|done].
  destruct (f el); by rewrite IH.
Qed.

Lemma not_invalid (s : string) : not_ s = true → isValid s = false.
Proof. by destruct s. Qed.

(** The test of line 68 is: one of the two attributes is not valid (the
    emptiness tests add nothing for strings). *)
Lemma unsized_spec (image : ImageElement) :
  unsized image
  = negb (isValid (attributeWidth image) && isValid (attributeHeight image)).
Proof.
  unfold unsized. cbn zeta.
  destruct (not_ (attributeWidth image)) eqn:Hw.
  { by rewrite (not_invalid _ Hw). }
  destruct (not_ (attributeHeight image)) eqn:Hh.
  { by rewrite (not_invalid _ Hh), andb_false_r. }
  cbn. by rewrite negb_andb.
Qed.

Lemma audit_items (lib : Lib) (images : list ImageElement) :
  (details (audit lib images)).2 = item_of lib <$> List.filter reported images.
Proof.
  unfold audit. cbn [details snd]. rewrite push_loop, filter_filter. cbn.
  f_equal. apply List.filter_ext. intros image. unfold reported.
  by rewrite unsized_spec.
Qed.

Lemma filter_nil_iff (f : ImageElement → bool) (l : list ImageElement) :
  List.filter f l = [] ↔ ∀ image, image ∈ l → f image = false.
Proof.
  induction l as [|el l IH]; cbn [List.filter].
  - split; [|done]. intros _ image Himage. by apply elem_of_nil in Himage.
  - destruct (f el) eqn:Hel.
    + split; [done|]. intros Hall.
      rewrite (Hall el) in Hel by (apply elem_of_cons; by left). done.
    + rewrite IH. split.
      * intros Hall image Himage.
        apply elem_of_cons in Himage as [->|Himage]; auto.
      * intros Hall image Himage. apply Hall, elem_of_cons. by right.
Qed.

Lemma reported_false (image : ImageElement) :
  reported image = false ↔
  (isCss image = false →
   isValid (attributeWidth image) = true ∧ isValid (attributeHeight image) = true).
Proof.
  unfold reported.
  destruct (isCss image), (isValid (attributeWidth image)),
    (isValid (attributeHeight image)); cbn;
    (split; [try done; try discriminate|]);
    try done; intros Hvalid; destruct (Hvalid eq_refl); discriminate.
Qed.

(** The table has one row per image that is not a CSS background image and
    has an invalid [width] or [height] attribute, in the order of the
    artifact; auditing two lists of images one after the other gives the
    rows of the first followed by the rows of the second. *)
Theorem audit_table_rows (lib : Lib) (images more : list ImageElement) :
  (details (audit lib images)).2 = item_of lib <$> List.filter reported images ∧
  (details (audit lib (images ++ more))).2
  = (details (audit lib images)).2 ++ (details (audit lib more)).2.
Proof.
  split; [apply audit_items|].
  rewrite !audit_items, List.filter_app. apply fmap_app.
Qed.

(** The score is 1 exactly if every image that is not a CSS background
    image has a valid width and a valid height; otherwise it is 0, and it
    is 0 exactly if the table has a row. *)
Theorem audit_score (lib : Lib) (images : list ImageElement) :
  (score (audit lib images) = 1 ↔
   ∀ image, image ∈ images → isCss image = false →
            isValid (attributeWidth image) = true ∧
            isValid (attributeHeight image) = true) ∧
  (score (audit lib images) = 0 ∨ score (audit lib images) = 1) ∧
  (score (audit lib images) = 0 ↔ (details (audit lib images)).2 ≠ []).
Proof.
  pose proof (audit_items lib images) as Hitems.
  assert (score (audit lib images)
          = if 0 <? length (details (audit lib images)).2 then 0 else 1)
    as Hscore by reflexivity.
  rewrite Hscore, Hitems.
  destruct (List.filter reported images) as [|el l] eqn:Hfilter; cbn.
  - split; [split; [|done]|].
    + intros _ image Himage. apply reported_false.
      by apply (proj1 (filter_nil_iff reported images) Hfilter).
    + split; [by right|]. split; [done|]. by intros Hrows.
  - split; [split; [done|]|].
    + intros Hall. exfalso.
      assert (List.filter reported images = []) as Hnil; [|congruence].
      apply filter_nil_iff. intros image Himage. apply reported_false. auto.
    + split; [by left|]. split; done.
Qed.

(** The audit is not applicable exactly if the artifact has no image other
    than CSS background images; it then scores 1 with an empty table. *)
Theorem audit_not_applicable (lib : Lib) (images : list ImageElement) :
  (notApplicable (audit lib images) = true ↔
   ∀ image, image ∈ images → isCss image = true) ∧
  (notApplicable (audit lib images) = true →
   score (audit lib images) = 1 ∧ (details (audit lib images)).2 = []).
Proof.
  assert (notApplicable (audit lib images) = true ↔
          List.filter (λ el, negb (isCss el)) images = []) as Hna.
  { unfold audit. cbn [notApplicable].
    destruct (List.filter _ images); cbn; split; done. }
  split.
  - rewrite Hna, filter_nil_iff. split; intros Hall image Himage.
    + by apply negb_false_iff, Hall.
    + by apply negb_false_iff, Hall.
  - intros Himages. apply Hna in Himages.
    unfold audit. cbn [score details snd]. by rewrite Himages.
Qed.

(** CSS background images are ignored: with or without one in the artifact,
    the product of the audit is the same. *)
Theorem audit_ignores_css (lib : Lib) (before after : list ImageElement)
    (css : ImageElement) :
  isCss css = true →
  audit lib (before ++ css :: after) = audit lib (before ++ after).
Proof.
  intros Hcss. unfold audit. rewrite !List.filter_app.
  cbn [List.filter]. by rewrite Hcss.
Qed.

Lemma audit_ignores_css_witness :
  audit demo_lib ([demo_image false "100" "50"]
                  ++ demo_image true "" "" :: [demo_image false "" "50"])
  = audit demo_lib ([demo_image false "100" "50"] ++ [demo_image false "" "50"]).
Proof.
  apply (audit_ignores_css demo_lib [demo_image false "100" "50"]
           [demo_image false "" "50"] (demo_image true "" "")).
  reflexivity.
Defined.

Example isValid_examples :
  isValid "100" = true ∧ isValid "007" = true ∧ isValid "0" = false ∧
  isValid "" = false ∧ isValid "50%" = false ∧ isValid "1.5" = false ∧
  isValid "-3" = false ∧ isValid " 10" = false.
Proof. repeat split. Qed.

Example audit_demo :
  let product := audit demo_lib [demo_image false "100" "50";
                                 demo_image true "" "";
                                 demo_image false "100" "auto"] in
  score product = 0 ∧ notApplicable product = false ∧
  length (details product).2 = 1.
Proof. repeat split. Qed.

End SizedImagesFacts.
